(** * ShQ active queue management and the Lgc (DCTCP-style) estimator

    A shallow embedding of two classes of the ns-3 tree:

    - [ShqQueueDisc] (traffic-control/model/shq-queue-disc.{h,cc}): the
      queue discipline that marks or drops arriving packets with a
      probability recomputed by a periodic timer;
    - [TcpLgc] (internet/model/tcp-lgc.cc): the sender-side estimator of
      the fraction of ECN-marked bytes (the file spells the class both
      [TcpDctcp::] and [TcpLgc::]; it is one class here).

    The [uint32_t] members and locals of the two classes are [N] with
    the wrap-around written out, [double] is the primitive binary64
    [float], [Time] is a signed count of nanoseconds in [Z].  Member
    functions take the object (and, when they read the clock or
    schedule, the simulator) and return the new one; a function that can
    abort returns a [Result], a conversion that C++ leaves undefined an
    [option].  What the two classes use of the rest of ns-3 (the backing
    queue, packets, the scheduler, the random stream, the connection
    state) is modelled from the specification and marked as such; the
    occupancy of the backing queue is a plain count. *)

From Stdlib Require Import ZArith NArith List Bool Lia Floats String.
Import ListNotations.

(* Decimal constants such as 0.9 denote the nearest binary64 value. *)
#[global] Set Warnings "-inexact-float".

(** ** Machine integers *)

Module U32.
Definition modulus : N := 2 ^ 32.
Definition wrap (n : N) : N := (n mod modulus)%N.
Definition add (a b : N) : N := wrap (a + b).
Definition mul (a b : N) : N := wrap (a * b).
End U32.

Arguments U32.wrap : simpl never.
Arguments U32.add : simpl never.
Arguments U32.mul : simpl never.

(** ** Doubles *)

Module Dbl.
(** Conversion of an integer to the nearest double (ties to even), the
    conversion C++ applies to an integer operand of a double operator. *)
Definition of_Z (z : Z) : float :=
  SF2Prim (binary_normalize prec emax z 0 false).

Definition of_N (n : N) : float := of_Z (Z.of_N n).

(** The integer part of a double, rounding toward zero; [None] for NaN
    and the infinities. *)
Definition SFtrunc (x : spec_float) : option Z :=
  match x with
  | S754_zero _ => Some 0%Z
  | S754_finite s m e =>
      let v := match e with
               | Zneg p => Z.shiftr (Zpos m) (Zpos p)
               | _ => Z.shiftl (Zpos m) e
               end in
      Some (if s then Z.opp v else v)
  | S754_infinity _ | S754_nan => None
  end.

Definition trunc (x : float) : option Z := SFtrunc (Prim2SF x).

(** Conversion of a double to [uint32_t]: the fractional part is
    discarded; the behaviour is undefined ([None]) when the truncated
    value is not representable. *)
Definition to_uint32 (x : float) : option N :=
  match trunc x with
  | Some z =>
      if ((0 <=? z) && (z <? 2 ^ 32))%Z then Some (Z.to_N z) else None
  | None => None
  end.

(** Neither NaN nor an infinity. *)
Definition finite (x : float) : bool := PrimFloat.is_finite x.
End Dbl.

Arguments Dbl.of_Z : simpl never.
Arguments Dbl.of_N : simpl never.
Arguments Dbl.trunc : simpl never.
Arguments Dbl.to_uint32 : simpl never.
Arguments Dbl.finite : simpl never.

(** ** Fatal errors *)

(** [NS_ABORT_MSG_IF] and [NS_ASSERT_MSG] end the program with a message. *)
Inductive Result (A : Type) : Type :=
| Ok (a : A)
| Abort (msg : string).
Arguments Ok {A} a.
Arguments Abort {A} msg.

(** ** The simulator *)

Module Sim.
(** Modelled from the spec: the [Time] class, [Simulator::Now] and
    [Simulator::Schedule] are not among the sources.  [currentTime()]
    is a clock read, [scheduleAfter(duration, callback)] files the
    callback for [now + duration]. *)
Definition Time : Type := Z.

(** Modelled from the spec: the callback an event carries; the
    discipline schedules only [ShqQueueDisc::CalculateProb]. *)
Inductive Callback : Type := CalculateProbCb.

(** Modelled from the spec: [EventId], the handle of a scheduled event,
    with its expiry time. *)
Record EventId : Type := mkEventId {
  ev_ts : Time;
  ev_uid : N;
  ev_cb : Callback
}.

(** Modelled from the spec: the scheduler's clock and the events it has
    been given, oldest first. *)
Record Simulator : Type := mkSimulator {
  now : Time;
  next_uid : N;
  events : list EventId
}.

(** Modelled from the spec: [Simulator::Schedule (delay, callback)]. *)
Definition Schedule (delay : Time) (cb : Callback) (s : Simulator)
  : EventId * Simulator :=
  let ev := mkEventId (now s + delay)%Z (next_uid s) cb in
  (ev, mkSimulator (now s) (next_uid s + 1)%N (events s ++ [ev])).

(** Modelled from the spec: [Seconds (n)], a duration of [n] seconds. *)
Definition Seconds (n : Z) : Time := (n * 1000000000)%Z.

(** Modelled from the spec: [Time::GetSeconds], the interval in
    seconds as a double. *)
Definition GetSeconds (t : Time) : float := (Dbl.of_Z t / 1e9)%float.
End Sim.

(** Modelled from the spec: [UniformRandomVariable], the source of the
    draws [uniformRandom01()]; a stream of values and the position of
    the next one. *)
Record UniformRandomVariable : Type := mkUv {
  uv_values : nat -> float;
  uv_next : nat
}.

(** Modelled from the spec: [UniformRandomVariable::GetValue], one draw. *)
Definition GetValue (r : UniformRandomVariable)
  : float * UniformRandomVariable :=
  (uv_values r (uv_next r), mkUv (uv_values r) (S (uv_next r))).

(** ** The queue discipline *)

Module Shq.
Import Sim.

(** *** Packets *)

(** Modelled from the spec: the ECN field of a packet; all but
    [ECN_NotECT] are ECN-capable. *)
Inductive EcnCodepoint : Type := ECN_NotECT | ECN_ECT1 | ECN_ECT0 | ECN_CE.

(** Modelled from the spec: [QueueDiscItem]; a packet carries its byte
    length, its enqueue timestamp and its ECN field
    ([packet.sizeBytes()], [packet.enqueueTimestamp()],
    [packet.isEcnCapable()], [packet.setCongestionExperienced()]). *)
Record QueueDiscItem : Type := mkItem {
  item_size : N;
  item_timestamp : Time;
  item_ecn : EcnCodepoint
}.

Definition GetSize (item : QueueDiscItem) : N := item_size item.
Definition GetTimeStamp (item : QueueDiscItem) : Time := item_timestamp item.

Definition IsEcnCapable (item : QueueDiscItem) : bool :=
  match item_ecn item with
  | ECN_NotECT => false
  | _ => true
  end.

(** Modelled from the spec: [QueueDiscItem::Mark] sets the
    congestion-experienced codepoint of an ECN-capable packet and says
    whether it did. *)
Definition ItemMark (item : QueueDiscItem) : bool * QueueDiscItem :=
  if IsEcnCapable item
  then (true, mkItem (item_size item) (item_timestamp item) ECN_CE)
  else (false, item).

(** *** The backing queue *)

(** Modelled from the spec: [QueueSize], a packet count or a byte count,
    whichever unit is configured. *)
Inductive QueueSizeUnit : Type := PACKETS | BYTES.

Record QueueSize : Type := mkQueueSize {
  qs_unit : QueueSizeUnit;
  qs_value : N
}.

(** Modelled from the spec: the backing FIFO ([DropTailQueue]), an
    ordered sequence of packets bounded by [maxSize], in packets or in
    bytes ([queue.currentOccupancy()], [queue.enqueue(packet)],
    [queue.dequeue()], [queue.isEmpty()], [queue.totalBytes()]). *)
Record Queue : Type := mkQueue {
  q_packets : list QueueDiscItem;
  q_maxSize : QueueSize
}.

(** Modelled from the spec: the number of packets and the total bytes
    ([queue.totalBytes()]) of the FIFO. *)
Definition GetNPackets (q : Queue) : N := N.of_nat (List.length (q_packets q)).

Fixpoint total_bytes (l : list QueueDiscItem) : N :=
  match l with
  | [] => 0
  | item :: l' => GetSize item + total_bytes l'
  end%N.

Definition GetNBytes (q : Queue) : N := total_bytes (q_packets q).

(** Modelled from the spec: [queue.currentOccupancy()], in the unit of
    the limit. *)
Definition QueueGetCurrentSize (q : Queue) : QueueSize :=
  match qs_unit (q_maxSize q) with
  | PACKETS => mkQueueSize PACKETS (GetNPackets q)
  | BYTES => mkQueueSize BYTES (GetNBytes q)
  end.

(** Modelled from the spec: [queue.isEmpty()]. *)
Definition IsEmpty (q : Queue) : bool :=
  match q_packets q with
  | [] => true
  | _ :: _ => false
  end.

(** Modelled from the spec: [nQueued + item], the occupancy as if the
    packet were added, and [>] on sizes of one unit. *)
Definition QueueSizePlus (s : QueueSize) (item : QueueDiscItem) : QueueSize :=
  match qs_unit s with
  | PACKETS => mkQueueSize PACKETS (qs_value s + 1)
  | BYTES => mkQueueSize BYTES (qs_value s + GetSize item)
  end%N.

Definition QueueSizeGt (a b : QueueSize) : bool := (qs_value b <? qs_value a)%N.

(** Modelled from the spec: [queue.enqueue(packet)]; the FIFO refuses a
    packet that does not fit and appends it otherwise. *)
Definition QueueEnqueue (item : QueueDiscItem) (q : Queue) : bool * Queue :=
  if QueueSizeGt (QueueSizePlus (QueueGetCurrentSize q) item) (q_maxSize q)
  then (false, q)
  else (true, mkQueue (q_packets q ++ [item]) (q_maxSize q)).

(** Modelled from the spec: [queue.dequeue()] removes the head. *)
Definition QueueDequeue (q : Queue) : option QueueDiscItem * Queue :=
  match q_packets q with
  | [] => (None, q)
  | item :: rest => (Some item, mkQueue rest (q_maxSize q))
  end.

(** *** The class *)

(** The reasons of shq-queue-disc.h, spelled as there. *)
Definition FORCED_DROP : string := "Forced drop"%string.
Definition UNFORCED_DROP : string := "Unorced drop"%string.
Definition UNFORCED_MARK : string := "Unforced mark"%string.
(** Modelled from the spec: the reason the base class gives when the
    backing queue itself refuses a packet. *)
Definition INTERNAL_QUEUE_DROP : string := "Dropped by internal queue"%string.

(** Modelled from the spec: what the base class reports to its
    observers, a drop or a mark with its reason tag. *)
Inductive TraceEvent : Type :=
| DroppedBeforeEnqueue (item : QueueDiscItem) (reason : string)
| Marked (item : QueueDiscItem) (reason : string).

(** Variables supplied by the user. *)
Record Attributes : Type := mkAttributes {
  m_sUpdate : Time;
  m_tInterval : Time;
  m_meanPktSize : N;
  m_maxP : float;
  m_alpha : float;
  m_linkBandwidth : N;
  m_useEcn : bool
}.

Record ShqQueueDisc : Type := mkShq {
  attrs : Attributes;
  (* variables maintained by ShQ *)
  m_countBytes : N;
  m_qAvg : float;
  m_qCur : float;
  m_markProb : float;
  m_qDelay : Time;
  m_maxBytes : N;
  m_rtrsEvent : option EventId;
  m_uv : UniformRandomVariable;
  (* the QueueDisc base: the one internal queue and what was traced *)
  internalQueue : Queue;
  traced : list TraceEvent
}.

Definition set_countBytes (v : N) (d : ShqQueueDisc) : ShqQueueDisc :=
  mkShq (attrs d) v (m_qAvg d) (m_qCur d) (m_markProb d) (m_qDelay d)
        (m_maxBytes d) (m_rtrsEvent d) (m_uv d) (internalQueue d) (traced d).

Definition set_qAvg (v : float) (d : ShqQueueDisc) : ShqQueueDisc :=
  mkShq (attrs d) (m_countBytes d) v (m_qCur d) (m_markProb d) (m_qDelay d)
        (m_maxBytes d) (m_rtrsEvent d) (m_uv d) (internalQueue d) (traced d).

Definition set_qCur (v : float) (d : ShqQueueDisc) : ShqQueueDisc :=
  mkShq (attrs d) (m_countBytes d) (m_qAvg d) v (m_markProb d) (m_qDelay d)
        (m_maxBytes d) (m_rtrsEvent d) (m_uv d) (internalQueue d) (traced d).

Definition set_markProb (v : float) (d : ShqQueueDisc) : ShqQueueDisc :=
  mkShq (attrs d) (m_countBytes d) (m_qAvg d) (m_qCur d) v (m_qDelay d)
        (m_maxBytes d) (m_rtrsEvent d) (m_uv d) (internalQueue d) (traced d).

Definition set_qDelay (v : Time) (d : ShqQueueDisc) : ShqQueueDisc :=
  mkShq (attrs d) (m_countBytes d) (m_qAvg d) (m_qCur d) (m_markProb d) v
        (m_maxBytes d) (m_rtrsEvent d) (m_uv d) (internalQueue d) (traced d).

Definition set_maxBytes (v : N) (d : ShqQueueDisc) : ShqQueueDisc :=
  mkShq (attrs d) (m_countBytes d) (m_qAvg d) (m_qCur d) (m_markProb d)
        (m_qDelay d) v (m_rtrsEvent d) (m_uv d) (internalQueue d) (traced d).

Definition set_rtrsEvent (v : option EventId) (d : ShqQueueDisc) : ShqQueueDisc :=
  mkShq (attrs d) (m_countBytes d) (m_qAvg d) (m_qCur d) (m_markProb d)
        (m_qDelay d) (m_maxBytes d) v (m_uv d) (internalQueue d) (traced d).

Definition set_uv (v : UniformRandomVariable) (d : ShqQueueDisc) : ShqQueueDisc :=
  mkShq (attrs d) (m_countBytes d) (m_qAvg d) (m_qCur d) (m_markProb d)
        (m_qDelay d) (m_maxBytes d) (m_rtrsEvent d) v (internalQueue d) (traced d).

Definition set_internalQueue (v : Queue) (d : ShqQueueDisc) : ShqQueueDisc :=
  mkShq (attrs d) (m_countBytes d) (m_qAvg d) (m_qCur d) (m_markProb d)
        (m_qDelay d) (m_maxBytes d) (m_rtrsEvent d) (m_uv d) v (traced d).

Definition trace (e : TraceEvent) (d : ShqQueueDisc) : ShqQueueDisc :=
  mkShq (attrs d) (m_countBytes d) (m_qAvg d) (m_qCur d) (m_markProb d)
        (m_qDelay d) (m_maxBytes d) (m_rtrsEvent d) (m_uv d) (internalQueue d)
        (e :: traced d).

(** *** The base class *)

(** Modelled from the spec: with a single internal queue the
    discipline's size and limit are those of that queue. *)
Definition GetMaxSize (d : ShqQueueDisc) : QueueSize := q_maxSize (internalQueue d).

Definition GetCurrentSize (d : ShqQueueDisc) : QueueSize :=
  QueueGetCurrentSize (internalQueue d).

(** Modelled from the spec: [QueueDisc::DropBeforeEnqueue] reports the
    rejected packet with its reason. *)
Definition DropBeforeEnqueue (item : QueueDiscItem) (reason : string)
           (d : ShqQueueDisc) : ShqQueueDisc :=
  trace (DroppedBeforeEnqueue item reason) d.

(** Modelled from the spec: [QueueDisc::Mark] asks the packet to mark
    itself and reports the mark when it did. *)
Definition Mark (item : QueueDiscItem) (reason : string) (d : ShqQueueDisc)
  : bool * QueueDiscItem * ShqQueueDisc :=
  let (retval, item') := ItemMark item in
  if negb retval then (false, item, d)
  else (true, item', trace (Marked item' reason) d).

(** Modelled from the spec: [GetInternalQueue (0)->Enqueue (item)]; a
    refusal of the internal queue reaches the discipline's drop trace. *)
Definition InternalEnqueue (item : QueueDiscItem) (d : ShqQueueDisc)
  : bool * ShqQueueDisc :=
  let (retval, q') := QueueEnqueue item (internalQueue d) in
  if retval then (true, set_internalQueue q' d)
  else (false, DropBeforeEnqueue item INTERNAL_QUEUE_DROP d).

(** *** shq-queue-disc.cc *)

(** [ShqQueueDisc::ShouldMark] *)
Definition ShouldMark (d : ShqQueueDisc) : bool * ShqQueueDisc :=
  let (u, uv') := GetValue (m_uv d) in
  let d := set_uv uv' d in
  if (u <? m_markProb d)%float then (true, d) else (false, d).

(** [ShqQueueDisc::DoEnqueue] *)
Definition DoEnqueue (item : QueueDiscItem) (d : ShqQueueDisc)
  : bool * ShqQueueDisc :=
  let nQueued := GetCurrentSize d in
  if QueueSizeGt (QueueSizePlus nQueued item) (GetMaxSize d) then
    (false, DropBeforeEnqueue item FORCED_DROP d)
  else
    let d := set_countBytes (U32.add (m_countBytes d) (GetSize item)) d in
    let (mark, d) := ShouldMark d in
    if mark then
      if negb (m_useEcn (attrs d)) then
        (false, DropBeforeEnqueue item UNFORCED_DROP d)
      else
        let '(marked, item', d) := Mark item UNFORCED_MARK d in
        if negb marked then
          (false, DropBeforeEnqueue item UNFORCED_DROP d)
        else InternalEnqueue item' d
    else InternalEnqueue item d.

(** [ShqQueueDisc::InitializeParams]; the product is a double and
    [m_maxBytes] a [uint32_t]. *)
Definition InitializeParams (d : ShqQueueDisc) : option ShqQueueDisc :=
  let d := set_countBytes 0 d in
  let d := set_qAvg 0 d in
  let d := set_qCur 0 d in
  let d := set_markProb 0 d in
  match Dbl.to_uint32 ((Dbl.of_N (m_linkBandwidth (attrs d)) / 8)
                       * GetSeconds (m_tInterval (attrs d)))%float with
  | Some v => Some (set_maxBytes v d)
  | None => None
  end.

(** [ShqQueueDisc::CalculateProb] *)
Definition CalculateProb (d : ShqQueueDisc) (s : Simulator)
  : ShqQueueDisc * Simulator :=
  let nQueued := U32.wrap (qs_value (QueueGetCurrentSize (internalQueue d))) in
  let d := set_countBytes
             (U32.add (m_countBytes d) (U32.mul nQueued (m_meanPktSize (attrs d)))) d in
  let d := set_qAvg (m_qAvg d * (1 - m_alpha (attrs d))
                     + Dbl.of_N (m_countBytes d) * m_alpha (attrs d))%float d in
  let p := (m_maxP (attrs d) * m_qAvg d / Dbl.of_N (m_maxBytes d))%float in
  let d := set_markProb p d in
  let d := set_countBytes 0 d in
  let (ev, s) := Schedule (m_tInterval (attrs d)) CalculateProbCb s in
  (set_rtrsEvent (Some ev) d, s).

(** [ShqQueueDisc::DoDequeue] *)
Definition DoDequeue (d : ShqQueueDisc) (s : Simulator)
  : Result (option QueueDiscItem * ShqQueueDisc) :=
  if IsEmpty (internalQueue d) then Ok (None, d)
  else
    let (got, q') := QueueDequeue (internalQueue d) in
    let d := set_internalQueue q' d in
    match got with
    | None => Abort "Dequeue null, but internal queue not empty"%string
    | Some item =>
        let d := set_qDelay (now s - GetTimeStamp item)%Z d in
        let d := if (GetNBytes (internalQueue d) =? 0)%N
                 then set_qDelay (Seconds 0) d else d in
        Ok (Some item, d)
    end.

(** [ShqQueueDisc::GetQueueDelay] *)
Definition GetQueueDelay (d : ShqQueueDisc) : Time := m_qDelay d.

(** *** Runs of the discipline under its scheduler *)

Inductive Op : Type :=
| OpEnqueue (item : QueueDiscItem)
| OpDequeue
| OpTimer
| OpAdvance (dt : N).

Definition World : Type := (ShqQueueDisc * Simulator)%type.

Definition step (w : World) (op : Op) : World :=
  let (d, s) := w in
  match op with
  | OpEnqueue item => (snd (DoEnqueue item d), s)
  | OpDequeue =>
      match DoDequeue d s with
      | Ok (_, d') => (d', s)
      | Abort _ => (d, s)
      end
  | OpTimer => CalculateProb d s
  | OpAdvance dt => (d, mkSimulator (now s + Z.of_N dt)%Z (next_uid s) (events s))
  end.

Definition run (ops : list Op) (w : World) : World := fold_left step ops w.

(** The occupancy in the unit of the limit, the limit, and the occupancy
    as if [item] were added. *)
Definition occupancy (d : ShqQueueDisc) : N := qs_value (GetCurrentSize d).
Definition maxSize (d : ShqQueueDisc) : N := qs_value (GetMaxSize d).
Definition occupancy_with (item : QueueDiscItem) (d : ShqQueueDisc) : N :=
  qs_value (QueueSizePlus (GetCurrentSize d) item).

(** The occupancy of a queue is within its limit. *)
Definition within_limit (q : Queue) : Prop :=
  (qs_value (QueueGetCurrentSize q) <= qs_value (q_maxSize q))%N.
End Shq.

(** ** The congestion estimator *)

Module Lgc.
Import Sim.

(** *** The connection *)

(** Modelled from the spec: sequence numbers, 32-bit; their
    [operator>=] is declared outside these sources and is a parameter of
    the estimator below. *)
Definition SequenceNumber32 : Type := N.

(** Modelled from the spec: the enumerations of [TcpSocketState] that
    tcp-lgc.cc names. *)
Inductive UseEcn_t : Type := Off | On | AcceptOnly.
Inductive EcnMode_t : Type := ClassicEcn | DctcpEcn.
Inductive EcnCodePoint_t : Type := NotECT | Ect1 | Ect0 | CongExp.
Inductive EcnState_t : Type :=
| ECN_DISABLED | ECN_IDLE | ECN_CE_RCVD | ECN_SENDING_ECE | ECN_ECE_RCVD
| ECN_CWR_SENT.

Definition is_ECE_RCVD (s : EcnState_t) : bool :=
  match s with
  | ECN_ECE_RCVD => true
  | _ => false
  end.

(** Modelled from the spec: the fields of [TcpSocketState] that
    tcp-lgc.cc reads or writes; window and segment size are [uint32_t]. *)
Record TcpSocketState : Type := mkTcb {
  m_useEcn : UseEcn_t;
  m_ecnMode : EcnMode_t;
  m_ectCodePoint : EcnCodePoint_t;
  m_ecnState : EcnState_t;
  m_cWnd : N;
  m_segmentSize : N;
  m_nextTxSequence : SequenceNumber32;
  m_lastAckedSeq : SequenceNumber32
}.

(** *** The class *)

(** Modelled from the spec: the class declaration (tcp-dctcp.h) is not
    among the sources.  The members are those the constructors of
    tcp-lgc.cc initialise, and the trace source
    [m_traceCongestionEstimate] (newest report first); the two byte
    counters are unsigned 32-bit, as their increment
    [segmentsAcked * tcb->m_segmentSize] is. *)
Record TcpLgc : Type := mkLgc {
  m_ackedBytesEcn : N;
  m_ackedBytesTotal : N;
  m_priorRcvNxt : SequenceNumber32;
  m_priorRcvNxtFlag : bool;
  m_alpha : float;
  m_nextSeq : SequenceNumber32;
  m_nextSeqFlag : bool;
  m_ceState : bool;
  m_delayedAckReserved : bool;
  m_g : float;
  m_useEct0 : bool;
  m_initialized : bool;
  m_traceCongestionEstimate : list (N * N * float)
}.

(** [TcpLgc::TcpLgc ()]; [m_alpha], [m_g] and [m_useEct0] are not set
    by the constructor and come from the configuration. *)
Definition constructor (alpha g : float) (useEct0 : bool) : TcpLgc :=
  mkLgc 0 0 0%N false alpha 0%N false false false g useEct0 false [].

Definition set_ackedBytesEcn (v : N) (c : TcpLgc) : TcpLgc :=
  mkLgc v (m_ackedBytesTotal c) (m_priorRcvNxt c) (m_priorRcvNxtFlag c)
        (m_alpha c) (m_nextSeq c) (m_nextSeqFlag c) (m_ceState c)
        (m_delayedAckReserved c) (m_g c) (m_useEct0 c) (m_initialized c)
        (m_traceCongestionEstimate c).

Definition set_ackedBytesTotal (v : N) (c : TcpLgc) : TcpLgc :=
  mkLgc (m_ackedBytesEcn c) v (m_priorRcvNxt c) (m_priorRcvNxtFlag c)
        (m_alpha c) (m_nextSeq c) (m_nextSeqFlag c) (m_ceState c)
        (m_delayedAckReserved c) (m_g c) (m_useEct0 c) (m_initialized c)
        (m_traceCongestionEstimate c).

Definition set_alpha (v : float) (c : TcpLgc) : TcpLgc :=
  mkLgc (m_ackedBytesEcn c) (m_ackedBytesTotal c) (m_priorRcvNxt c)
        (m_priorRcvNxtFlag c) v (m_nextSeq c) (m_nextSeqFlag c) (m_ceState c)
        (m_delayedAckReserved c) (m_g c) (m_useEct0 c) (m_initialized c)
        (m_traceCongestionEstimate c).

Definition set_nextSeq (v : SequenceNumber32) (c : TcpLgc) : TcpLgc :=
  mkLgc (m_ackedBytesEcn c) (m_ackedBytesTotal c) (m_priorRcvNxt c)
        (m_priorRcvNxtFlag c) (m_alpha c) v (m_nextSeqFlag c) (m_ceState c)
        (m_delayedAckReserved c) (m_g c) (m_useEct0 c) (m_initialized c)
        (m_traceCongestionEstimate c).

Definition set_nextSeqFlag (v : bool) (c : TcpLgc) : TcpLgc :=
  mkLgc (m_ackedBytesEcn c) (m_ackedBytesTotal c) (m_priorRcvNxt c)
        (m_priorRcvNxtFlag c) (m_alpha c) (m_nextSeq c) v (m_ceState c)
        (m_delayedAckReserved c) (m_g c) (m_useEct0 c) (m_initialized c)
        (m_traceCongestionEstimate c).

Definition set_initialized (v : bool) (c : TcpLgc) : TcpLgc :=
  mkLgc (m_ackedBytesEcn c) (m_ackedBytesTotal c) (m_priorRcvNxt c)
        (m_priorRcvNxtFlag c) (m_alpha c) (m_nextSeq c) (m_nextSeqFlag c)
        (m_ceState c) (m_delayedAckReserved c) (m_g c) (m_useEct0 c) v
        (m_traceCongestionEstimate c).

Definition traceCongestionEstimate (bytesEcn bytesTotal : N) (alpha : float)
           (c : TcpLgc) : TcpLgc :=
  mkLgc (m_ackedBytesEcn c) (m_ackedBytesTotal c) (m_priorRcvNxt c)
        (m_priorRcvNxtFlag c) (m_alpha c) (m_nextSeq c) (m_nextSeqFlag c)
        (m_ceState c) (m_delayedAckReserved c) (m_g c) (m_useEct0 c)
        (m_initialized c)
        ((bytesEcn, bytesTotal, alpha) :: m_traceCongestionEstimate c).

(** *** tcp-lgc.cc *)

(** [TcpDctcp::Init] *)
Definition Init (tcb : TcpSocketState) (c : TcpLgc) : TcpLgc * TcpSocketState :=
  let tcb := mkTcb On DctcpEcn (if m_useEct0 c then Ect0 else Ect1)
                   (m_ecnState tcb) (m_cWnd tcb) (m_segmentSize tcb)
                   (m_nextTxSequence tcb) (m_lastAckedSeq tcb) in
  (set_initialized true c, tcb).

(** [TcpDctcp::GetSsThresh]; [tcb] is a pointer to const and
    [bytesInFlight] is ignored. *)
Definition GetSsThresh (tcb : TcpSocketState) (bytesInFlight : N) (c : TcpLgc)
  : option N * TcpLgc :=
  (Dbl.to_uint32 ((1 - m_alpha c / 2) * Dbl.of_N (m_cWnd tcb))%float, c).

(** [TcpLgc::Reset] *)
Definition Reset (tcb : TcpSocketState) (c : TcpLgc) : TcpLgc :=
  let c := set_nextSeq (m_nextTxSequence tcb) c in
  let c := set_ackedBytesEcn 0 c in
  set_ackedBytesTotal 0 c.

(** [TcpLgc::InitializeDctcpAlpha] *)
Definition InitializeDctcpAlpha (alpha : float) (c : TcpLgc) : Result TcpLgc :=
  if m_initialized c then Abort "DCTCP has already been initialized"%string
  else Ok (set_alpha alpha c).

Section Estimator.
(** [operator>=] of [SequenceNumber32]. *)
Variable seq_ge : SequenceNumber32 -> SequenceNumber32 -> bool.

(** The boundary [PktsAcked] compares against: [m_nextSeq], once it
    has been taken from the connection. *)
Definition window_end (tcb : TcpSocketState) (c : TcpLgc) : SequenceNumber32 :=
  if m_nextSeqFlag c then m_nextSeq c else m_nextTxSequence tcb.

(** [TcpDctcp::PktsAcked] *)
Definition PktsAcked (tcb : TcpSocketState) (segmentsAcked : N) (rtt : Time)
           (c : TcpLgc) : TcpLgc :=
  let c := set_ackedBytesTotal
             (U32.add (m_ackedBytesTotal c)
                      (U32.mul segmentsAcked (m_segmentSize tcb))) c in
  let c := if is_ECE_RCVD (m_ecnState tcb)
           then set_ackedBytesEcn
                  (U32.add (m_ackedBytesEcn c)
                           (U32.mul segmentsAcked (m_segmentSize tcb))) c
           else c in
  let c := if negb (m_nextSeqFlag c)
           then set_nextSeqFlag true (set_nextSeq (m_nextTxSequence tcb) c)
           else c in
  if seq_ge (m_lastAckedSeq tcb) (m_nextSeq c) then
    let bytesEcn :=
      if (0 <? m_ackedBytesTotal c)%N
      then (Dbl.of_N (m_ackedBytesEcn c) * 1 / Dbl.of_N (m_ackedBytesTotal c))%float
      else 0%float in
    let c := set_alpha ((1 - m_g c) * m_alpha c + m_g c * bytesEcn)%float c in
    let c := traceCongestionEstimate (m_ackedBytesEcn c) (m_ackedBytesTotal c)
                                     (m_alpha c) c in
    Reset tcb c
  else c.

(** One call of [PktsAcked] with its arguments. *)
Record AckCall : Type := mkAckCall {
  call_tcb : TcpSocketState;
  call_segmentsAcked : N;
  call_rtt : Time
}.

Definition ack (c : TcpLgc) (a : AckCall) : TcpLgc :=
  PktsAcked (call_tcb a) (call_segmentsAcked a) (call_rtt a) c.

Definition run (calls : list AckCall) (c : TcpLgc) : TcpLgc :=
  fold_left ack calls c.

(** No call of the run takes [m_ackedBytesTotal] past [2^32 - 1]. *)
Fixpoint total_fits (calls : list AckCall) (c : TcpLgc) : bool :=
  match calls with
  | [] => true
  | a :: rest =>
      (m_ackedBytesTotal c
       + U32.mul (call_segmentsAcked a) (m_segmentSize (call_tcb a))
       <? U32.modulus)%N
      && total_fits rest (ack c a)
  end.
End Estimator.
End Lgc.

(** ** Sample configurations *)

Module Samples.
Import Sim Shq.

(** The defaults of [ShqQueueDisc::GetTypeId]. *)
Definition default_attrs : Attributes :=
  mkAttributes (Seconds 0) 15000000%Z 1000 0.9%float 0.25%float 100000000 true.

(** The defaults with a recomputation interval of zero. *)
Definition zero_interval_attrs : Attributes :=
  mkAttributes (Seconds 0) 0%Z 1000 0.9%float 0.25%float 100000000 true.

Definition half_draws : UniformRandomVariable := mkUv (fun _ => 0.5%float) 0.

(** A discipline as [CheckConfig] leaves it: one empty internal queue
    with the given limit, nothing counted, nothing traced. *)
Definition fresh (a : Attributes) (limit : QueueSize) : ShqQueueDisc :=
  mkShq a 0 0%float 0%float 0%float 0%Z 0 None half_draws (mkQueue [] limit) [].

Definition sim0 : Simulator := mkSimulator 0%Z 0 [].

(** A discipline of a hundred packets whose mark probability is 0.75. *)
Definition marking : ShqQueueDisc :=
  set_markProb 0.75%float (fresh default_attrs (mkQueueSize PACKETS 100)).

(** A discipline limited to 1500 bytes. *)
Definition small : ShqQueueDisc := fresh default_attrs (mkQueueSize BYTES 1500).

Definition pkt (size : N) (ts : Time) (ecn : EcnCodepoint) : QueueDiscItem :=
  mkItem size ts ecn.

(** The configuration of scratch/first-please.cc: a hundred packets,
    an interval of 20 ms, alpha 0.25, 10 Mbit/s, maxP 0.5, mean packet
    size 1500. *)
Definition scratch_attrs : Attributes :=
  mkAttributes (Seconds 0) 20000000%Z 1500 0.5%float 0.25%float 10000000 true.

(** That discipline after [InitializeParams]. *)
Definition scratch_disc : ShqQueueDisc :=
  match InitializeParams (fresh scratch_attrs (mkQueueSize PACKETS 100)) with
  | Some d => d
  | None => fresh scratch_attrs (mkQueueSize PACKETS 100)
  end.

(** A burst of a hundred packets of 1500 bytes, then the timer. *)
Definition burst : list Op := repeat (OpEnqueue (pkt 1500 0%Z ECN_ECT0)) 100.
Definition burst_then_timer : list Op := burst ++ [OpTimer].

(** The discipline after the burst. *)
Definition loaded : ShqQueueDisc := fst (run burst (scratch_disc, sim0)).
End Samples.

Module LgcSamples.
Import Sim Lgc.
Local Open Scope N_scope.

(** Comparison of sequence numbers that stay far from the wrap. *)
Definition seq_ge (a b : SequenceNumber32) : bool := (b <=? a)%N.

(** A connection after [Init], with its window, segment size, next
    sequence to send, last acknowledged sequence and ECN state. *)
Definition connection (cWnd segmentSize : N) (nextTx lastAcked : SequenceNumber32)
           (ecnState : EcnState_t) : TcpSocketState :=
  mkTcb On DctcpEcn Ect0 ecnState cWnd segmentSize nextTx lastAcked.

(** A new estimator with the DCTCP defaults: alpha 1, gain 1/16. *)
Definition fresh_lgc : TcpLgc := constructor 1%float 0.0625%float true.

(** An estimator in the middle of a window that ends at sequence 1000:
    150 bytes acknowledged, none marked, alpha 0.5, gain 1/16; it is a
    new estimator seeded with 0.5, initialized, and told of three
    segments of 50 bytes. *)
Definition mid_window : TcpLgc :=
  mkLgc 0 150 0%N false 0.5%float 1000%N true false false 0.0625%float true true [].

(** Two acknowledgements of 2,000,000 segments of 1448 bytes each, the
    second with ECN-Echo, neither reaching the end of the window. *)
Definition two_large_acks : list AckCall :=
  [ mkAckCall (connection 10000 1448 5000 1 ECN_IDLE) 2000000 0%Z;
    mkAckCall (connection 10000 1448 5000 2 ECN_ECE_RCVD) 2000000 0%Z ].

(** Four ordinary acknowledgements: the second closes the window that
    ends at 5000, the third carries ECN-Echo. *)
Definition four_small_acks : list AckCall :=
  [ mkAckCall (connection 10000 1448 5000 1449 ECN_IDLE) 1 0%Z;
    mkAckCall (connection 10000 1448 9000 5000 ECN_ECE_RCVD) 2 0%Z;
    mkAckCall (connection 10000 1448 9000 6448 ECN_ECE_RCVD) 1 0%Z;
    mkAckCall (connection 10000 1448 9000 7896 ECN_IDLE) 1 0%Z ].

(** A connection whose window is three bytes, and an estimator whose
    alpha is 1. *)
Definition tiny_window : TcpSocketState := connection 3 1448 5000 1 ECN_IDLE.
Definition saturated : TcpLgc := constructor 1%float 0.0625%float true.
End LgcSamples.

(** ** Set-up, timer and histories of the discipline *)

Module ShqSetup.
Import Sim Shq.

(** Modelled from the spec: what [CheckConfig] reads of the [QueueDisc]
    base: the numbers of classes and of packet filters, the internal
    queues, and the configured limit. *)
Record QueueDiscBase : Type := mkBase {
  nQueueDiscClasses : N;
  nPacketFilters : N;
  internalQueues : list Queue;
  m_maxSize : QueueSize
}.

Definition GetNQueueDiscClasses (b : QueueDiscBase) : N := nQueueDiscClasses b.
Definition GetNPacketFilters (b : QueueDiscBase) : N := nPacketFilters b.
Definition GetNInternalQueues (b : QueueDiscBase) : N :=
  N.of_nat (List.length (internalQueues b)).

(** Modelled from the spec: the limit of a discipline that owns a single
    backing queue is that queue's when there is one, and the configured
    capacity before. *)
Definition BaseGetMaxSize (b : QueueDiscBase) : QueueSize :=
  match internalQueues b with
  | q :: _ => q_maxSize q
  | [] => m_maxSize b
  end.

(** Modelled from the spec: [AddInternalQueue]. *)
Definition AddInternalQueue (q : Queue) (b : QueueDiscBase) : QueueDiscBase :=
  mkBase (nQueueDiscClasses b) (nPacketFilters b) (internalQueues b ++ [q])
         (m_maxSize b).

(** [ShqQueueDisc::CheckConfig]; the queue it adds is a new, empty
    [DropTailQueue] whose [MaxSize] is [GetMaxSize ()]. *)
Definition CheckConfig (b : QueueDiscBase) : bool * QueueDiscBase :=
  if (0 <? GetNQueueDiscClasses b)%N then (false, b)
  else if (0 <? GetNPacketFilters b)%N then (false, b)
  else
    let b := if (GetNInternalQueues b =? 0)%N
             then AddInternalQueue (mkQueue [] (BaseGetMaxSize b)) b
             else b in
    if negb (GetNInternalQueues b =? 1)%N then (false, b)
    else (true, b).
End ShqSetup.

Module ShqTimer.
Import Sim Shq.



(** [ShqQueueDisc::ShqQueueDisc]: [d0] holds the members as they are
    when the body runs; the body creates the random stream and schedules
    the first recomputation [m_sUpdate] from now. *)
Definition constructor (d0 : ShqQueueDisc) (uv : UniformRandomVariable)
           (s : Simulator) : World :=
  let d := set_uv uv d0 in
  let (ev, s) := Schedule (m_sUpdate (attrs d)) CalculateProbCb s in
  (set_rtrsEvent (Some ev) d, s).







End ShqTimer.

Module ShqHistory.
Import Sim Shq.

(** The capacity check of [DoEnqueue] passes. *)
Definition fits (item : QueueDiscItem) (d : ShqQueueDisc) : bool :=
  negb (QueueSizeGt (QueueSizePlus (GetCurrentSize d) item) (GetMaxSize d)).

(** What a caller sees of a run: the packets it offered and [DoEnqueue]
    accepted, the packets [DoDequeue] returned, and the packets offered
    that passed the capacity check, each in order. *)
Record History : Type := mkHistory {
  accepted : list QueueDiscItem;
  delivered : list QueueDiscItem;
  counted : list QueueDiscItem
}.

Definition observe (h : History) (w : World) (op : Op) : History :=
  match op with
  | OpEnqueue item =>
      mkHistory
        (if fst (DoEnqueue item (fst w)) then accepted h ++ [item] else accepted h)
        (delivered h)
        (if fits item (fst w) then counted h ++ [item] else counted h)
  | OpDequeue =>
      match DoDequeue (fst w) (snd w) with
      | Ok (Some item, _) => mkHistory (accepted h) (delivered h ++ [item]) (counted h)
      | _ => h
      end
  | OpTimer | OpAdvance _ => h
  end.

Fixpoint record (ops : list Op) (h : History) (w : World) : History * World :=
  match ops with
  | [] => (h, w)
  | op :: ops' => record ops' (observe h w op) (step w op)
  end.

Definition history (ops : list Op) (w : World) : History :=
  fst (record ops (mkHistory [] [] []) w).

(** A stored packet is the offered one, or the offered one with the
    congestion-experienced codepoint in place of an ECN-capable one. *)
Definition stored_as (offered stored : QueueDiscItem) : Prop :=
  item_size stored = item_size offered
  /\ item_timestamp stored = item_timestamp offered
  /\ (item_ecn stored = item_ecn offered
      \/ (item_ecn stored = ECN_CE /\ item_ecn offered <> ECN_NotECT)).

(** The packet with the congestion-experienced codepoint. *)
Definition congestion_experienced (item : QueueDiscItem) : QueueDiscItem :=
  mkItem (item_size item) (item_timestamp item) ECN_CE.

Definition is_timer (op : Op) : bool :=
  match op with
  | OpTimer => true
  | _ => false
  end.

(** No recomputation among the operations. *)
Definition no_timer (ops : list Op) : bool := forallb (fun op => negb (is_timer op)) ops.

Definition forced (e : TraceEvent) : Prop :=
  exists item, e = DroppedBeforeEnqueue item FORCED_DROP.

(** The packets a run refuses, in the order they were offered, each
    with whether it had passed the capacity check. *)
Fixpoint refused (ops : list Op) (w : World) : list (QueueDiscItem * bool) :=
  match ops with
  | [] => []
  | op :: ops' =>
      match op with
      | OpEnqueue item =>
          if fst (DoEnqueue item (fst w)) then refused ops' (step w op)
          else (item, fits item (fst w)) :: refused ops' (step w op)
      | _ => refused ops' (step w op)
      end
  end.

(** The drops among the reports, and the marks, each with its reason. *)
Definition drop_reports (tr : list TraceEvent) : list (QueueDiscItem * string) :=
  flat_map (fun e => match e with
                     | DroppedBeforeEnqueue item reason => [(item, reason)]
                     | Marked _ _ => []
                     end) tr.

Definition mark_reports (tr : list TraceEvent) : list (QueueDiscItem * string) :=
  flat_map (fun e => match e with
                     | DroppedBeforeEnqueue _ _ => []
                     | Marked item reason => [(item, reason)]
                     end) tr.

(** Every draw of the stream is at least 0. *)
Definition draws_nonnegative (r : UniformRandomVariable) : Prop :=
  forall n, (0 <=? uv_values r n)%float = true.

(** Every draw of the stream is below 1. *)
Definition draws_below_one (r : UniformRandomVariable) : Prop :=
  forall n, (uv_values r n <? 1)%float = true.
End ShqHistory.

(** ** Windows and copies of the estimator *)

Module LgcWindow.
Import Sim Lgc.

(** The copy constructor [TcpLgc::TcpLgc (const TcpLgc&)], which is what
    [TcpLgc::Fork] returns: the twelve members are copied; the trace
    source of the copy is new. *)
Definition Fork (c : TcpLgc) : TcpLgc :=
  mkLgc (m_ackedBytesEcn c) (m_ackedBytesTotal c) (m_priorRcvNxt c)
        (m_priorRcvNxtFlag c) (m_alpha c) (m_nextSeq c) (m_nextSeqFlag c)
        (m_ceState c) (m_delayedAckReserved c) (m_g c) (m_useEct0 c)
        (m_initialized c) [].

(** The bytes a call acknowledges, and those of them with ECN-Echo. *)
Definition acked (a : AckCall) : N :=
  U32.mul (call_segmentsAcked a) (m_segmentSize (call_tcb a)).

Definition acked_ecn (a : AckCall) : N :=
  if is_ECE_RCVD (m_ecnState (call_tcb a)) then acked a else 0%N.

Fixpoint sum_acked (calls : list AckCall) : N :=
  match calls with
  | [] => 0
  | a :: rest => acked a + sum_acked rest
  end%N.

Fixpoint sum_acked_ecn (calls : list AckCall) : N :=
  match calls with
  | [] => 0
  | a :: rest => acked_ecn a + sum_acked_ecn rest
  end%N.

Section Window.
Variable seq_ge : SequenceNumber32 -> SequenceNumber32 -> bool.

(** The call finds the last acknowledged sequence at or past the end of
    the window. *)
Definition closes (c : TcpLgc) (a : AckCall) : bool :=
  seq_ge (m_lastAckedSeq (call_tcb a)) (window_end (call_tcb a) c).

(** None of the calls closes the window. *)
Fixpoint stays_open (calls : list AckCall) (c : TcpLgc) : bool :=
  match calls with
  | [] => true
  | a :: rest => negb (closes c a) && stays_open rest (ack seq_ge c a)
  end.
End Window.
End LgcWindow.

(** * Properties *)

(** ** Binary64 arithmetic *)

Section DoubleFacts.
Local Open Scope float_scope.

Lemma SFmul_comm (x y : spec_float) : SF64mul x y = SF64mul y x.
Proof.
  unfold SF64mul, SFmul.
  destruct x as [sx|sx| |sx mx ex], y as [sy|sy| |sy my ey];
    try reflexivity; try (now rewrite xorb_comm).
  now rewrite xorb_comm, Pos.mul_comm, Z.add_comm.
Qed.

Lemma double_mul_comm (x y : float) : x * y = y * x.
Proof.
  apply Prim2SF_inj. rewrite !mul_spec. apply SFmul_comm.
Qed.

(** Multiplying by [1.0] is exact: the mantissa is shifted left by 52
    bits and the rounding shifts it back. *)
Lemma SFmul_one_r (x : spec_float) :
  valid_binary x = true ->
  SF64mul x (S754_finite false 4503599627370496 (-52)) = x.
Proof.
  destruct x as [s|s| |s m e]; intros Hv.
  - unfold SF64mul, SFmul. now rewrite xorb_false_r.
  - unfold SF64mul, SFmul. now rewrite xorb_false_r.
  - reflexivity.
  - unfold SF64mul, SFmul. cbn [SpecFloat.valid_binary] in Hv.
    unfold bounded, canonical_mantissa in Hv.
    apply andb_prop in Hv. destruct Hv as [Hc Hb].
    apply Z.eqb_eq in Hc.
    rewrite xorb_false_r, Pos.mul_comm.
    cbn [Pos.mul].
    unfold binary_round_aux, shr_fexp.
    cbn [Zdigits2 digits2_pos].
    set (d := digits2_pos m) in *.
    match goal with
    | |- context [fexp _ _ (Z.pos ?p + (e + -52))%Z] =>
        replace (Z.pos p + (e + -52))%Z with (Z.pos d + e)%Z by lia
    end.
    rewrite Hc.
    replace (e - (e + -52))%Z with 52%Z by lia.
    cbn [shr shr_record_of_loc iter_pos shr_1 orb].
    cbn [round_nearest_even shr_m loc_of_shr_record Zdigits2].
    replace (e + -52 + 52)%Z with e by lia.
    fold d. rewrite Hc, Z.sub_diag.
    cbn [shr shr_m]. now rewrite Hb.
Qed.

Lemma double_mul_one_r (x : float) : x * 1 = x.
Proof.
  apply Prim2SF_inj. rewrite mul_spec.
  change (Prim2SF 1) with (S754_finite false 4503599627370496 (-52)).
  apply SFmul_one_r, Prim2SF_valid.
Qed.

Lemma SFcompare_antisym (x y : spec_float) :
  SFcompare y x = option_map CompOpp (SFcompare x y).
Proof.
  destruct x as [sx|sx| |sx mx ex], y as [sy|sy| |sy my ey]; simpl;
    try reflexivity;
    try (destruct sx; reflexivity); try (destruct sy; reflexivity);
    try (destruct sx, sy; reflexivity).
  destruct sx, sy; simpl; try reflexivity;
    rewrite (Z.compare_antisym ex ey); destruct (ex ?= ey)%Z; simpl;
    try reflexivity;
    rewrite Pos.compare_cont_antisym; simpl;
    try rewrite CompOpp_involutive; reflexivity.
Qed.

(** [u >= p] excludes [u < p]. *)
Lemma double_leb_not_ltb (x y : float) :
  (y <=? x) = true -> (x <? y) = false.
Proof.
  rewrite FloatAxioms.leb_spec, FloatAxioms.ltb_spec. unfold SFleb, SFltb.
  rewrite (SFcompare_antisym (Prim2SF x) (Prim2SF y)).
  destruct (SFcompare (Prim2SF x) (Prim2SF y)) as [[]|]; simpl; congruence.
Qed.

Lemma SFdiv_zero_class (x : spec_float) (s : bool) :
  SF64div x (S754_zero s) = S754_nan
  \/ exists s', SF64div x (S754_zero s) = S754_infinity s'.
Proof.
  destruct x as [sx|sx| |sx mx ex]; simpl; eauto.
Qed.

Lemma double_not_finite_SF (r : float) :
  Prim2SF r = S754_nan \/ (exists s, Prim2SF r = S754_infinity s) ->
  Dbl.finite r = false.
Proof.
  intros H. unfold Dbl.finite, is_finite, is_nan, is_infinity.
  rewrite !FloatAxioms.eqb_spec, FloatAxioms.abs_spec.
  destruct H as [H|[s H]]; rewrite H; simpl.
  - reflexivity.
  - change (Prim2SF infinity) with (S754_infinity false).
    destruct s; reflexivity.
Qed.

(** A quotient by zero is a NaN or an infinity, whatever the dividend. *)
Lemma double_div_zero_not_finite (x : float) : Dbl.finite (x / 0) = false.
Proof.
  apply double_not_finite_SF. rewrite div_spec.
  change (Prim2SF 0) with (S754_zero false).
  apply SFdiv_zero_class.
Qed.

Lemma double_neq (x y : float) : Prim2SF x <> Prim2SF y -> x <> y.
Proof. intros H E. apply H. now rewrite E. Qed.
End DoubleFacts.

(** ** The queue discipline *)

Section ShqProperties.
Import Sim Shq Samples.

(** *** Frame lemmas of the setters *)

Lemma InternalEnqueue_frame (item : QueueDiscItem) (d : ShqQueueDisc) :
  let d' := snd (InternalEnqueue item d) in
  m_markProb d' = m_markProb d /\ m_qAvg d' = m_qAvg d
  /\ m_countBytes d' = m_countBytes d /\ m_uv d' = m_uv d
  /\ attrs d' = attrs d /\ m_maxBytes d' = m_maxBytes d
  /\ m_qDelay d' = m_qDelay d.
Proof.
  unfold InternalEnqueue.
  destruct (QueueEnqueue item (internalQueue d)) as [[|] q']; cbn;
    repeat split; reflexivity.
Qed.

(** Once the discipline's own check has passed, the internal queue,
    which has the same limit, takes the packet. *)
Lemma InternalEnqueue_fits (item : QueueDiscItem) (d : ShqQueueDisc) :
  QueueSizeGt (QueueSizePlus (GetCurrentSize d) item) (GetMaxSize d) = false ->
  InternalEnqueue item d
  = (true, set_internalQueue
             (mkQueue (q_packets (internalQueue d) ++ [item])
                      (q_maxSize (internalQueue d))) d).
Proof.
  unfold InternalEnqueue, QueueEnqueue, GetCurrentSize, GetMaxSize.
  intros H. now rewrite H.
Qed.

(** Marking changes the ECN field only, so a marked packet weighs what
    the packet weighed. *)
Lemma QueueSizePlus_marked (sz : QueueSize) (item : QueueDiscItem) :
  QueueSizePlus sz (snd (ItemMark item)) = QueueSizePlus sz item.
Proof.
  unfold QueueSizePlus, ItemMark.
  destruct (IsEcnCapable item), (qs_unit sz); reflexivity.
Qed.

(** Splits a goal about [DoEnqueue item d] along the five paths of the
    function: forced drop; mark and enqueue; drop of a packet that cannot
    be marked; drop with ECN off; plain enqueue. *)
Ltac DoEnqueue_paths item d :=
  unfold DoEnqueue, ShouldMark, GetValue, Mark, ItemMark;
  destruct (QueueSizeGt (QueueSizePlus (GetCurrentSize d) item) (GetMaxSize d));
  [ | cbn; destruct (_ <? _)%float; cbn;
      [ destruct (m_useEcn (attrs d)); cbn;
        [ destruct (IsEcnCapable item); cbn | ]
      | ] ].

(** *** The periodic recomputation *)

(** C1 -- [CalculateProb]: with [n] the backlog read from the internal
    queue (as the 32-bit value the code holds), the step adds [n * meanPktSize] to [countBytes] (unsigned
    32-bit arithmetic), sets [qAvg] to
    [qAvg * (1 - alpha) + countBytes * alpha] with the new count, sets
    [markProb] to [maxP * qAvg / maxBytes] with the new average and no
    clamp, resets [countBytes] to 0 and schedules itself [tInterval]
    after the current time; nothing else of the discipline changes.
    Without a clamp the result can exceed both [maxP] and 1. *)
Theorem CalculateProb_recomputes :
  (forall (d : ShqQueueDisc) (s : Simulator),
      let n := U32.wrap (occupancy d) in
      let countBytes1 :=
        U32.add (m_countBytes d) (U32.mul n (m_meanPktSize (attrs d))) in
      let qAvg1 :=
        (m_qAvg d * (1 - m_alpha (attrs d))
         + Dbl.of_N countBytes1 * m_alpha (attrs d))%float in
      let ev :=
        mkEventId (now s + m_tInterval (attrs d))%Z (next_uid s) CalculateProbCb in
      let d' := fst (CalculateProb d s) in
      let s' := snd (CalculateProb d s) in
      m_qAvg d' = qAvg1
      /\ m_markProb d'
         = (m_maxP (attrs d) * qAvg1 / Dbl.of_N (m_maxBytes d))%float
      /\ m_countBytes d' = 0%N
      /\ m_rtrsEvent d' = Some ev
      /\ events s' = events s ++ [ev]
      /\ now s' = now s
      /\ attrs d' = attrs d
      /\ internalQueue d' = internalQueue d
      /\ m_maxBytes d' = m_maxBytes d
      /\ m_qDelay d' = m_qDelay d
      /\ m_uv d' = m_uv d
      /\ traced d' = traced d)
  /\ (exists (d : ShqQueueDisc) (s : Simulator),
         let p := m_markProb (fst (CalculateProb d s)) in
         (m_maxP (attrs d) <? p)%float = true /\ (1 <? p)%float = true).
Proof.
  split.
  - intros d s. cbv zeta. unfold CalculateProb, Schedule. cbn.
    repeat split; reflexivity.
  - exists loaded, sim0. vm_compute. split; reflexivity.
Qed.

(** With the configuration of scratch/first-please.cc, a burst that fills
    the queue within one interval is counted twice, as arrivals and as
    backlog, and the next recomputation sets [markProb] to 1.5. *)
Lemma markProb_after_burst :
  m_maxBytes scratch_disc = 25000%N
  /\ m_markProb (fst (run burst_then_timer (scratch_disc, sim0))) = 1.5%float.
Proof.
  split; vm_compute; reflexivity.
Qed.

(** *** Admission *)

(** What [DoEnqueue] does with a packet that passes the capacity check. *)
Lemma DoEnqueue_admitted (item : QueueDiscItem) (d : ShqQueueDisc) :
  QueueSizeGt (QueueSizePlus (GetCurrentSize d) item) (GetMaxSize d) = false ->
  let d1 := set_uv (snd (GetValue (m_uv d)))
                   (set_countBytes (U32.add (m_countBytes d) (GetSize item)) d) in
  let append i := mkQueue (q_packets (internalQueue d) ++ [i])
                          (q_maxSize (internalQueue d)) in
  DoEnqueue item d
  = if (fst (GetValue (m_uv d)) <? m_markProb d)%float then
      if m_useEcn (attrs d) && IsEcnCapable item
      then (true, set_internalQueue
                    (append (snd (ItemMark item)))
                    (trace (Marked (snd (ItemMark item)) UNFORCED_MARK) d1))
      else (false, DropBeforeEnqueue item UNFORCED_DROP d1)
    else (true, set_internalQueue (append item) d1).
Proof.
  intros Hfit. cbv zeta. unfold DoEnqueue. rewrite Hfit.
  unfold ShouldMark, GetValue. cbn.
  destruct (uv_values (m_uv d) (uv_next (m_uv d)) <? m_markProb d)%float; cbn.
  - destruct (m_useEcn (attrs d)); cbn; [|reflexivity].
    unfold Mark. generalize (QueueSizePlus_marked (GetCurrentSize d) item).
    unfold ItemMark. destruct (IsEcnCapable item); cbn; [|reflexivity].
    intros Hw. rewrite InternalEnqueue_fits; [reflexivity|].
    unfold GetCurrentSize, GetMaxSize in *. cbn. now rewrite Hw.
  - rewrite InternalEnqueue_fits; [reflexivity|exact Hfit].
Qed.

(** C2 -- [DoEnqueue], for a packet that passes the capacity check: its
    byte length is added to [countBytes] (unsigned 32-bit arithmetic) and
    one value [u] is drawn.  If [u < markProb], the packet is marked
    congestion-experienced and accepted, reported as [UNFORCED_MARK],
    when ECN is enabled and the packet is ECN-capable, and it is rejected
    and reported as [UNFORCED_DROP] when ECN is disabled or the packet
    cannot be marked; if [u >= markProb] (indeed whenever [u < markProb]
    fails) the packet is appended to the queue.  [countBytes] has
    grown in every case, the rejection included. *)
Theorem DoEnqueue_after_capacity_check (item : QueueDiscItem) (d : ShqQueueDisc) :
  (occupancy_with item d <= maxSize d)%N ->
  let u := fst (GetValue (m_uv d)) in
  let marked := mkItem (item_size item) (item_timestamp item) ECN_CE in
  let r := DoEnqueue item d in
  m_countBytes (snd r) = U32.add (m_countBytes d) (GetSize item)
  /\ m_uv (snd r) = snd (GetValue (m_uv d))
  /\ ((u <? m_markProb d)%float = true ->
      m_useEcn (attrs d) = true -> IsEcnCapable item = true ->
      fst r = true
      /\ q_packets (internalQueue (snd r)) = q_packets (internalQueue d) ++ [marked]
      /\ traced (snd r) = Marked marked UNFORCED_MARK :: traced d)
  /\ ((u <? m_markProb d)%float = true ->
      m_useEcn (attrs d) = false \/ IsEcnCapable item = false ->
      fst r = false
      /\ internalQueue (snd r) = internalQueue d
      /\ traced (snd r) = DroppedBeforeEnqueue item UNFORCED_DROP :: traced d)
  /\ ((m_markProb d <=? u)%float = true \/ (u <? m_markProb d)%float = false ->
      fst r = true
      /\ q_packets (internalQueue (snd r)) = q_packets (internalQueue d) ++ [item]
      /\ traced (snd r) = traced d).
Proof.
  intros Hfit. apply N.ltb_ge in Hfit. cbv zeta.
  rewrite (DoEnqueue_admitted item d Hfit). cbv zeta.
  split; [|split; [|split; [|split]]].
  - destruct (_ <? _)%float; [destruct (_ && _)|]; reflexivity.
  - destruct (_ <? _)%float; [destruct (_ && _)|]; reflexivity.
  - intros Hu Hecn Hcap. rewrite Hu, Hecn, Hcap. cbn.
    unfold ItemMark. rewrite Hcap. repeat split.
  - intros Hu Hno. rewrite Hu.
    replace (m_useEcn (attrs d) && IsEcnCapable item) with false.
    + repeat split.
    + destruct Hno as [-> | ->]; [|rewrite andb_false_r]; reflexivity.
  - intros Hu.
    replace (fst (GetValue (m_uv d)) <? m_markProb d)%float with false.
    + repeat split.
    + destruct Hu as [Hu | Hu]; [apply double_leb_not_ltb in Hu|]; now rewrite Hu.
Qed.

Lemma DoEnqueue_after_capacity_check_witness :
  (occupancy_with (pkt 1000 0%Z ECN_ECT0) marking <= maxSize marking)%N
  /\ m_countBytes (snd (DoEnqueue (pkt 1000 0%Z ECN_ECT0) marking)) = 1000%N
  /\ fst (DoEnqueue (pkt 1000 0%Z ECN_ECT0) marking) = true
  /\ q_packets (internalQueue (snd (DoEnqueue (pkt 1000 0%Z ECN_ECT0) marking)))
     = [pkt 1000 0%Z ECN_CE]
  /\ traced (snd (DoEnqueue (pkt 1000 0%Z ECN_ECT0) marking))
     = [Marked (pkt 1000 0%Z ECN_CE) UNFORCED_MARK].
Proof.
  assert (Hfit : (occupancy_with (pkt 1000 0%Z ECN_ECT0) marking <= maxSize marking)%N)
    by (vm_compute; discriminate).
  split; [exact Hfit|].
  destruct (DoEnqueue_after_capacity_check (pkt 1000 0%Z ECN_ECT0) marking Hfit)
    as (Hcount & _ & Hmark & _).
  exact (conj Hcount (Hmark eq_refl eq_refl eq_refl)).
Defined.

(** *** Capacity *)

Lemma total_bytes_app (l : list QueueDiscItem) (item : QueueDiscItem) :
  total_bytes (l ++ [item]) = (total_bytes l + GetSize item)%N.
Proof.
  induction l as [|x l IH]; cbn [total_bytes app].
  - lia.
  - rewrite IH. lia.
Qed.

Lemma QueueEnqueue_within_limit (item : QueueDiscItem) (q : Queue) :
  within_limit q -> within_limit (snd (QueueEnqueue item q)).
Proof.
  unfold within_limit, QueueEnqueue, QueueSizeGt, QueueSizePlus,
    QueueGetCurrentSize, GetNPackets, GetNBytes.
  intros Hq.
  destruct (qs_unit (q_maxSize q)) eqn:Hu; cbn [qs_unit qs_value];
    match goal with |- context [(?a <? ?b)%N] => destruct (N.ltb_spec a b) end;
    cbn [snd q_packets q_maxSize]; rewrite ?Hu; cbn [qs_value]; try exact Hq.
  - rewrite length_app. cbn [List.length]. lia.
  - rewrite total_bytes_app. lia.
Qed.

Lemma QueueDequeue_within_limit (q : Queue) :
  within_limit q -> within_limit (snd (QueueDequeue q)).
Proof.
  unfold within_limit, QueueDequeue, QueueGetCurrentSize, GetNPackets, GetNBytes.
  intros Hq.
  destruct (q_packets q) as [|item rest] eqn:Hp; cbn [snd q_packets q_maxSize].
  - rewrite Hp. exact Hq.
  - destruct (qs_unit (q_maxSize q)); cbn [qs_value total_bytes List.length] in *; lia.
Qed.

Lemma InternalEnqueue_within_limit (item : QueueDiscItem) (d : ShqQueueDisc) :
  within_limit (internalQueue d) ->
  within_limit (internalQueue (snd (InternalEnqueue item d))).
Proof.
  intros Hq. unfold InternalEnqueue.
  pose proof (QueueEnqueue_within_limit item (internalQueue d) Hq) as H.
  destruct (QueueEnqueue item (internalQueue d)) as [[|] q']; cbn in *; assumption.
Qed.

Lemma DoEnqueue_within_limit (item : QueueDiscItem) (d : ShqQueueDisc) :
  within_limit (internalQueue d) ->
  within_limit (internalQueue (snd (DoEnqueue item d))).
Proof.
  intros Hq.
  DoEnqueue_paths item d; try exact Hq; apply InternalEnqueue_within_limit, Hq.
Qed.

Lemma DoDequeue_total (d : ShqQueueDisc) (s : Simulator) :
  exists got d', DoDequeue d s = Ok (got, d')
                 /\ internalQueue d' = snd (QueueDequeue (internalQueue d))
                 /\ m_markProb d' = m_markProb d /\ m_qAvg d' = m_qAvg d.
Proof.
  unfold DoDequeue, IsEmpty, QueueDequeue.
  destruct (q_packets (internalQueue d)) as [|item rest] eqn:Hp.
  - exists None, d. repeat split.
  - cbn. eexists _, _. split; [reflexivity|].
    destruct (_ =? _)%N; repeat split.
Qed.

Lemma step_within_limit (w : World) (op : Op) :
  within_limit (internalQueue (fst w)) ->
  within_limit (internalQueue (fst (step w op))).
Proof.
  destruct w as [d s]. cbn [fst]. intros Hq.
  destruct op as [item| | |dt]; cbn [step fst].
  - apply DoEnqueue_within_limit, Hq.
  - destruct (DoDequeue_total d s) as (got & d' & -> & Hd' & _). cbn [fst].
    rewrite Hd'. apply QueueDequeue_within_limit, Hq.
  - unfold CalculateProb, Schedule. cbn. exact Hq.
  - exact Hq.
Qed.

Lemma run_within_limit (ops : list Op) (w : World) :
  within_limit (internalQueue (fst w)) ->
  within_limit (internalQueue (fst (run ops w))).
Proof.
  revert w. induction ops as [|op ops IH]; intros w Hq; cbn [run fold_left].
  - exact Hq.
  - apply IH, step_within_limit, Hq.
Qed.

Lemma DoEnqueue_maxSize (item : QueueDiscItem) (d : ShqQueueDisc) :
  q_maxSize (internalQueue (snd (DoEnqueue item d))) = q_maxSize (internalQueue d).
Proof.
  DoEnqueue_paths item d; try reflexivity;
    unfold InternalEnqueue, QueueEnqueue;
    destruct (QueueSizeGt _ _); reflexivity.
Qed.

Lemma step_maxSize (w : World) (op : Op) :
  q_maxSize (internalQueue (fst (step w op))) = q_maxSize (internalQueue (fst w)).
Proof.
  destruct w as [d s]. destruct op as [item| | |dt]; cbn [step fst].
  - apply DoEnqueue_maxSize.
  - destruct (DoDequeue_total d s) as (got & d' & -> & Hd' & _). cbn [fst].
    rewrite Hd'. unfold QueueDequeue.
    destruct (q_packets (internalQueue d)); reflexivity.
  - reflexivity.
  - reflexivity.
Qed.

Lemma run_maxSize (ops : list Op) (w : World) :
  q_maxSize (internalQueue (fst (run ops w))) = q_maxSize (internalQueue (fst w)).
Proof.
  revert w. induction ops as [|op ops IH]; intros w; cbn [run fold_left].
  - reflexivity.
  - unfold run in IH. rewrite IH. apply step_maxSize.
Qed.

(** C3 -- from an empty queue, whatever packets arrive, whenever the
    consumer dequeues and the timer fires, the occupancy of the backing
    queue stays within [maxSize], which does not change; and a packet
    whose addition would exceed [maxSize] is rejected by [DoEnqueue] with
    reason [FORCED_DROP] and nothing else happens: the queue, [countBytes]
    and the random stream (no draw, no mark) are as before. *)
Theorem capacity_invariant_and_forced_drop :
  (forall (ops : list Op) (d : ShqQueueDisc) (s : Simulator),
      q_packets (internalQueue d) = [] ->
      (occupancy (fst (run ops (d, s))) <= maxSize (fst (run ops (d, s))))%N
      /\ maxSize (fst (run ops (d, s))) = maxSize d)
  /\ (forall (item : QueueDiscItem) (d : ShqQueueDisc),
         (maxSize d < occupancy_with item d)%N ->
         let r := DoEnqueue item d in
         fst r = false
         /\ traced (snd r) = DroppedBeforeEnqueue item FORCED_DROP :: traced d
         /\ internalQueue (snd r) = internalQueue d
         /\ m_countBytes (snd r) = m_countBytes d
         /\ m_uv (snd r) = m_uv d
         /\ snd r = DropBeforeEnqueue item FORCED_DROP d).
Proof.
  split.
  - intros ops d s Hempty.
    unfold occupancy, maxSize, GetCurrentSize, GetMaxSize. split.
    + apply (run_within_limit ops (d, s)). cbn [fst].
      unfold within_limit, QueueGetCurrentSize, GetNPackets, GetNBytes.
      rewrite Hempty. destruct (qs_unit _); cbn; lia.
    + now rewrite run_maxSize.
  - intros item d Hfull. cbv zeta. unfold DoEnqueue.
    replace (QueueSizeGt _ _) with true.
    + repeat split.
    + symmetry. apply N.ltb_lt. exact Hfull.
Qed.

Lemma capacity_invariant_and_forced_drop_witness :
  (occupancy (fst (run [OpEnqueue (pkt 1000 0%Z ECN_ECT0);
                        OpEnqueue (pkt 1000 5%Z ECN_NotECT);
                        OpDequeue]
                       (small, sim0))) <= 1500)%N
  /\ (maxSize small
      < occupancy_with (pkt 1000 5%Z ECN_NotECT)
                       (fst (run [OpEnqueue (pkt 1000 0%Z ECN_ECT0)] (small, sim0))))%N
  /\ fst (DoEnqueue (pkt 1000 5%Z ECN_NotECT)
                    (fst (run [OpEnqueue (pkt 1000 0%Z ECN_ECT0)] (small, sim0))))
     = false.
Proof.
  destruct capacity_invariant_and_forced_drop as [Hinv Hdrop].
  split; [|split].
  - exact (proj1 (Hinv [OpEnqueue (pkt 1000 0%Z ECN_ECT0);
                        OpEnqueue (pkt 1000 5%Z ECN_NotECT);
                        OpDequeue] small sim0 eq_refl)).
  - reflexivity.
  - exact (proj1 (Hdrop (pkt 1000 5%Z ECN_NotECT)
                        (fst (run [OpEnqueue (pkt 1000 0%Z ECN_ECT0)] (small, sim0)))
                        eq_refl)).
Defined.

(** *** Departure *)

(** C6 -- [DoDequeue]: on an empty queue it returns no packet and leaves
    the discipline as it was; otherwise it removes and returns the head
    packet and sets [qDelay] to the current time minus the packet's
    timestamp, except that [qDelay] is exactly zero whenever no byte
    remains queued after the removal; nothing else changes. *)
Theorem DoDequeue_head_and_delay (d : ShqQueueDisc) (s : Simulator) :
  (q_packets (internalQueue d) = [] -> DoDequeue d s = Ok (None, d))
  /\ (forall (item : QueueDiscItem) (rest : list QueueDiscItem),
         q_packets (internalQueue d) = item :: rest ->
         exists d',
           DoDequeue d s = Ok (Some item, d')
           /\ internalQueue d' = mkQueue rest (q_maxSize (internalQueue d))
           /\ (total_bytes rest = 0%N -> m_qDelay d' = 0%Z)
           /\ (total_bytes rest <> 0%N ->
               m_qDelay d' = (now s - item_timestamp item)%Z)
           /\ attrs d' = attrs d
           /\ m_countBytes d' = m_countBytes d
           /\ m_qAvg d' = m_qAvg d
           /\ m_markProb d' = m_markProb d
           /\ m_maxBytes d' = m_maxBytes d
           /\ m_rtrsEvent d' = m_rtrsEvent d
           /\ m_uv d' = m_uv d
           /\ traced d' = traced d).
Proof.
  unfold DoDequeue, IsEmpty, QueueDequeue. split.
  - intros ->. reflexivity.
  - intros item rest ->. unfold GetNBytes. cbn.
    destruct (N.eqb_spec (total_bytes rest) 0) as [Hz | Hnz];
      eexists; (split; [reflexivity|]); cbn; repeat split;
      intros; congruence.
Qed.

Lemma DoDequeue_head_and_delay_witness :
  q_packets (internalQueue
               (fst (run [OpEnqueue (pkt 1000 0%Z ECN_ECT0)] (small, sim0))))
  = [pkt 1000 0%Z ECN_ECT0]
  /\ exists d',
      DoDequeue (fst (run [OpEnqueue (pkt 1000 0%Z ECN_ECT0)] (small, sim0)))
                (mkSimulator 7000%Z 0 [])
      = Ok (Some (pkt 1000 0%Z ECN_ECT0), d')
      /\ m_qDelay d' = 0%Z.
Proof.
  split; [reflexivity|].
  destruct (proj2 (DoDequeue_head_and_delay
                     (fst (run [OpEnqueue (pkt 1000 0%Z ECN_ECT0)] (small, sim0)))
                     (mkSimulator 7000%Z 0 []))
                  (pkt 1000 0%Z ECN_ECT0) [] eq_refl)
    as (d' & Hd & _ & Hzero & _).
  exists d'. split; [exact Hd | exact (Hzero eq_refl)].
Defined.

(** *** What the admission and departure paths leave alone *)

Lemma DoEnqueue_frame (item : QueueDiscItem) (d : ShqQueueDisc) :
  m_markProb (snd (DoEnqueue item d)) = m_markProb d
  /\ m_qAvg (snd (DoEnqueue item d)) = m_qAvg d.
Proof.
  DoEnqueue_paths item d; try (split; reflexivity);
    match goal with
    | |- context [InternalEnqueue ?i ?x] =>
        destruct (InternalEnqueue_frame i x) as (Hp & Hq & _)
    end;
    rewrite Hp, Hq; split; reflexivity.
Qed.

(** C8 -- neither [DoEnqueue] nor [DoDequeue] changes [markProb] or
    [qAvg], for every packet, every starting state and every clock
    ([DoDequeue] always returns); [CalculateProb] does change them. *)
Theorem markProb_qAvg_only_recomputed :
  (forall (item : QueueDiscItem) (d : ShqQueueDisc),
      m_markProb (snd (DoEnqueue item d)) = m_markProb d
      /\ m_qAvg (snd (DoEnqueue item d)) = m_qAvg d)
  /\ (forall (d : ShqQueueDisc) (s : Simulator),
         exists got d',
           DoDequeue d s = Ok (got, d')
           /\ m_markProb d' = m_markProb d
           /\ m_qAvg d' = m_qAvg d)
  /\ (exists (d : ShqQueueDisc) (s : Simulator),
         m_markProb (fst (CalculateProb d s)) <> m_markProb d
         /\ m_qAvg (fst (CalculateProb d s)) <> m_qAvg d).
Proof.
  split; [|split].
  - exact DoEnqueue_frame.
  - intros d s. destruct (DoDequeue_total d s) as (got & d' & H & _ & Hp & Hq).
    exists got, d'. auto.
  - exists loaded, sim0.
    split; apply double_neq; vm_compute; discriminate.
Qed.

(** *** The unguarded division *)

Lemma to_uint32_range (x : float) (v : N) :
  Dbl.to_uint32 x = Some v -> (v < U32.modulus)%N.
Proof.
  unfold Dbl.to_uint32. destruct (Dbl.trunc x) as [z|]; [|discriminate].
  destruct ((0 <=? z)%Z && (z <? 2 ^ 32)%Z) eqn:Hr; [|discriminate].
  apply andb_prop in Hr. destruct Hr as [Hlo Hhi].
  intros [= <-]. apply Z.leb_le in Hlo. apply Z.ltb_lt in Hhi.
  unfold U32.modulus. change (2 ^ 32)%N with (Z.to_N (2 ^ 32)). lia.
Qed.

Lemma CalculateProb_markProb_zero_maxBytes (d : ShqQueueDisc) (s : Simulator) :
  m_maxBytes d = 0%N ->
  Dbl.finite (m_markProb (fst (CalculateProb d s))) = false.
Proof.
  intros Hz. unfold CalculateProb, Schedule. cbn. rewrite Hz.
  change (Dbl.of_N 0) with 0%float. apply double_div_zero_not_finite.
Qed.

(** C10 -- [InitializeParams] stores in the 32-bit [maxBytes] the integer
    part of (link bandwidth in bit/s / 8) * interval in seconds, and
    [CalculateProb] divides by it without a test: whenever the resulting
    [markProb] is finite [maxBytes] was positive, while with
    [maxBytes = 0] the result is a NaN or an infinity; and there are
    configurations, such as the defaults with a zero interval, that
    initialise [maxBytes] to 0. *)
Theorem CalculateProb_needs_positive_maxBytes :
  (forall (d d' : ShqQueueDisc),
      InitializeParams d = Some d' ->
      Dbl.to_uint32 ((Dbl.of_N (m_linkBandwidth (attrs d)) / 8)
                     * GetSeconds (m_tInterval (attrs d)))%float
      = Some (m_maxBytes d')
      /\ (m_maxBytes d' < U32.modulus)%N)
  /\ (forall (d : ShqQueueDisc) (s : Simulator),
         Dbl.finite (m_markProb (fst (CalculateProb d s))) = true ->
         (0 < m_maxBytes d)%N)
  /\ (forall (d : ShqQueueDisc) (s : Simulator),
         m_maxBytes d = 0%N ->
         Dbl.finite (m_markProb (fst (CalculateProb d s))) = false)
  /\ (exists (d' : ShqQueueDisc),
         InitializeParams (fresh zero_interval_attrs (mkQueueSize PACKETS 100))
         = Some d'
         /\ m_maxBytes d' = 0%N
         /\ Dbl.finite (m_markProb (fst (CalculateProb d' sim0))) = false).
Proof.
  split; [|split; [|split]].
  - intros d d'. unfold InitializeParams. cbn.
    destruct (Dbl.to_uint32 _) as [v|] eqn:Hv; [|discriminate].
    intros [= <-]. cbn. split; [reflexivity|].
    eapply to_uint32_range, Hv.
  - intros d s Hfin. destruct (N.eq_0_gt_0_cases (m_maxBytes d)) as [Hz|Hpos];
      [|exact Hpos].
    rewrite (CalculateProb_markProb_zero_maxBytes d s Hz) in Hfin. discriminate.
  - exact CalculateProb_markProb_zero_maxBytes.
  - eexists. split; [vm_compute; reflexivity|]. split; vm_compute; reflexivity.
Qed.

Lemma CalculateProb_needs_positive_maxBytes_witness :
  Dbl.finite (m_markProb (fst (CalculateProb loaded sim0))) = true
  /\ (0 < m_maxBytes loaded)%N.
Proof.
  split; [reflexivity|].
  exact (proj1 (proj2 CalculateProb_needs_positive_maxBytes) loaded sim0 eq_refl).
Defined.

End ShqProperties.

(** ** The congestion estimator *)

Section LgcProperties.
Import Sim Lgc LgcSamples.
Local Open Scope N_scope.

(** *** The window close *)

Lemma mid_window_reached :
  InitializeDctcpAlpha 0.5%float fresh_lgc = Ok (set_alpha 0.5%float fresh_lgc)
  /\ PktsAcked seq_ge (connection 10000 50 1000 0 ECN_IDLE) 3 0%Z
                (fst (Init (connection 10000 50 0 0 ECN_IDLE)
                           (set_alpha 0.5%float fresh_lgc)))
     = mid_window.
Proof.
  split; reflexivity.
Qed.

(** C4 -- [PktsAcked], when the last acknowledged sequence has reached
    the end of the window: with [ecn] and [total] the two counters after
    this call's bytes are added, and [fraction = ecn / total] if
    [total > 0] and 0 otherwise, the new alpha is
    [alpha * (1 - g) + g * fraction]; both counters are then 0 and
    [nextSeq] is the connection's next sequence to send; the estimate
    reported is [(ecn, total, new alpha)].  With [ecn = 50],
    [total = 200], [alpha = 0.5] and [g = 0.0625] the new alpha is
    exactly 0.484375. *)
Theorem PktsAcked_window_close
        (ge : SequenceNumber32 -> SequenceNumber32 -> bool)
        (tcb : TcpSocketState) (segmentsAcked : N) (rtt : Time) (c : TcpLgc) :
  ge (m_lastAckedSeq tcb) (window_end tcb c) = true ->
  let acked := U32.mul segmentsAcked (m_segmentSize tcb) in
  let total := U32.add (m_ackedBytesTotal c) acked in
  let ecn := if is_ECE_RCVD (m_ecnState tcb)
             then U32.add (m_ackedBytesEcn c) acked
             else m_ackedBytesEcn c in
  let fraction := if (0 <? total)%N
                  then (Dbl.of_N ecn / Dbl.of_N total)%float
                  else 0%float in
  let c' := PktsAcked ge tcb segmentsAcked rtt c in
  m_alpha c' = (m_alpha c * (1 - m_g c) + m_g c * fraction)%float
  /\ m_ackedBytesEcn c' = 0%N
  /\ m_ackedBytesTotal c' = 0%N
  /\ m_nextSeq c' = m_nextTxSequence tcb
  /\ m_nextSeqFlag c' = true
  /\ m_traceCongestionEstimate c'
     = (ecn, total, m_alpha c') :: m_traceCongestionEstimate c
  /\ (ecn = 50%N -> total = 200%N ->
      m_alpha c = 0.5%float -> m_g c = 0.0625%float ->
      m_alpha c' = 0.484375%float).
Proof.
  intros Hclose. cbv zeta.
  assert (Hstep :
    PktsAcked ge tcb segmentsAcked rtt c
    = let total := U32.add (m_ackedBytesTotal c)
                           (U32.mul segmentsAcked (m_segmentSize tcb)) in
      let ecn := if is_ECE_RCVD (m_ecnState tcb)
                 then U32.add (m_ackedBytesEcn c)
                              (U32.mul segmentsAcked (m_segmentSize tcb))
                 else m_ackedBytesEcn c in
      let alpha' :=
        (m_alpha c * (1 - m_g c)
         + m_g c * (if (0 <? total)%N
                    then Dbl.of_N ecn / Dbl.of_N total else 0))%float in
      mkLgc 0 0 (m_priorRcvNxt c) (m_priorRcvNxtFlag c) alpha'
            (m_nextTxSequence tcb) true (m_ceState c) (m_delayedAckReserved c)
            (m_g c) (m_useEct0 c) (m_initialized c)
            ((ecn, total, alpha') :: m_traceCongestionEstimate c)).
  { destruct c as [ecn0 total0 prior priorFlag alpha0 next nextFlag ce ack g
                     ect0 init reports].
    unfold PktsAcked, window_end in *. cbn in *.
    destruct (is_ECE_RCVD (m_ecnState tcb)), nextFlag;
      cbn in *; rewrite Hclose; cbn;
      rewrite ?double_mul_one_r, (double_mul_comm (1 - g) alpha0);
      reflexivity. }
  rewrite Hstep. cbn. repeat split.
  intros -> -> -> ->. vm_compute. reflexivity.
Qed.

Lemma PktsAcked_window_close_witness :
  seq_ge (m_lastAckedSeq (connection 10000 50 2000 1000 ECN_ECE_RCVD))
         (window_end (connection 10000 50 2000 1000 ECN_ECE_RCVD) mid_window)
  = true
  /\ m_alpha (PktsAcked seq_ge (connection 10000 50 2000 1000 ECN_ECE_RCVD)
                        1 0%Z mid_window)
     = 0.484375%float
  /\ m_ackedBytesEcn (PktsAcked seq_ge (connection 10000 50 2000 1000 ECN_ECE_RCVD)
                                1 0%Z mid_window)
     = 0
  /\ m_ackedBytesTotal (PktsAcked seq_ge (connection 10000 50 2000 1000 ECN_ECE_RCVD)
                                  1 0%Z mid_window)
     = 0
  /\ m_nextSeq (PktsAcked seq_ge (connection 10000 50 2000 1000 ECN_ECE_RCVD)
                          1 0%Z mid_window)
     = 2000.
Proof.
  split; [reflexivity|].
  destruct (PktsAcked_window_close
              seq_ge (connection 10000 50 2000 1000 ECN_ECE_RCVD) 1 0%Z mid_window
              eq_refl) as (_ & Hecn & Htotal & Hnext & _ & _ & Hexample).
  exact (conj (Hexample eq_refl eq_refl eq_refl eq_refl)
              (conj Hecn (conj Htotal Hnext))).
Defined.

(** *** The counters *)

Lemma U32_wrap_le (n : N) : U32.wrap n <= n.
Proof.
  unfold U32.wrap. apply N.Div0.mod_le.
Qed.

Lemma U32_wrap_small (n : N) : n < U32.modulus -> U32.wrap n = n.
Proof.
  unfold U32.wrap. apply N.mod_small.
Qed.

(** One call keeps the marked bytes within the total as long as the
    total does not wrap. *)
Lemma PktsAcked_keeps_order
      (ge : SequenceNumber32 -> SequenceNumber32 -> bool)
      (tcb : TcpSocketState) (segmentsAcked : N) (rtt : Time) (c : TcpLgc) :
  m_ackedBytesEcn c <= m_ackedBytesTotal c ->
  m_ackedBytesTotal c + U32.mul segmentsAcked (m_segmentSize tcb) < U32.modulus ->
  m_ackedBytesEcn (PktsAcked ge tcb segmentsAcked rtt c)
  <= m_ackedBytesTotal (PktsAcked ge tcb segmentsAcked rtt c).
Proof.
  intros Hle Hfit. unfold PktsAcked.
  set (acked := U32.mul segmentsAcked (m_segmentSize tcb)) in *.
  assert (Ht : U32.add (m_ackedBytesTotal c) acked = m_ackedBytesTotal c + acked)
    by (apply U32_wrap_small, Hfit).
  assert (He : U32.add (m_ackedBytesEcn c) acked <= m_ackedBytesTotal c + acked).
  { unfold U32.add. etransitivity; [apply U32_wrap_le|]. lia. }
  destruct (is_ECE_RCVD (m_ecnState tcb)), (m_nextSeqFlag c) eqn:Hflag; cbn;
    rewrite ?Hflag; cbn;
    match goal with |- context [ge ?a ?b] => destruct (ge a b) end; cbn;
    rewrite ?Ht; lia.
Qed.

Lemma run_keeps_order
      (ge : SequenceNumber32 -> SequenceNumber32 -> bool)
      (calls : list AckCall) (c : TcpLgc) :
  m_ackedBytesEcn c <= m_ackedBytesTotal c ->
  total_fits ge calls c = true ->
  m_ackedBytesEcn (run ge calls c) <= m_ackedBytesTotal (run ge calls c).
Proof.
  revert c. induction calls as [|a calls IH]; intros c Hle Hfit.
  - exact Hle.
  - cbn [total_fits] in Hfit. apply andb_prop in Hfit. destruct Hfit as [Ha Hrest].
    apply N.ltb_lt in Ha. cbn [run fold_left]. apply IH.
    + unfold ack. apply PktsAcked_keeps_order; assumption.
    + exact Hrest.
Qed.

(** What one call does to the two counters. *)
Lemma PktsAcked_counters
      (ge : SequenceNumber32 -> SequenceNumber32 -> bool)
      (tcb : TcpSocketState) (segmentsAcked : N) (rtt : Time) (c : TcpLgc) :
  let acked := U32.mul segmentsAcked (m_segmentSize tcb) in
  let c' := PktsAcked ge tcb segmentsAcked rtt c in
  (m_ackedBytesEcn c' = 0 /\ m_ackedBytesTotal c' = 0)
  \/ (m_ackedBytesTotal c' = U32.add (m_ackedBytesTotal c) acked
      /\ (m_ackedBytesEcn c' = U32.add (m_ackedBytesEcn c) acked
          \/ m_ackedBytesEcn c' = m_ackedBytesEcn c)).
Proof.
  destruct c as [ecn0 total0 prior priorFlag alpha0 next nextFlag ce ack g
                   ect0 init reports].
  cbv zeta. unfold PktsAcked. cbn.
  destruct (is_ECE_RCVD (m_ecnState tcb)), nextFlag; cbn;
    match goal with |- context [ge ?a ?b] => destruct (ge a b) end; cbn; auto.
Qed.

(** C9 as amended -- a call of [PktsAcked] either resets both counters to
    0 (window close) or adds the acknowledged bytes to the total and,
    with ECN-Echo, the same bytes to the marked count, each modulo 2^32;
    hence in every state reached from a new estimator (both counters
    zero) by calls none of which takes the 32-bit total past [2^32 - 1],
    the marked bytes do not exceed the total. *)
Theorem ackedBytesEcn_within_total :
  (forall (ge : SequenceNumber32 -> SequenceNumber32 -> bool)
          (tcb : TcpSocketState) (segmentsAcked : N) (rtt : Time) (c : TcpLgc),
      let acked := U32.mul segmentsAcked (m_segmentSize tcb) in
      let c' := PktsAcked ge tcb segmentsAcked rtt c in
      (m_ackedBytesEcn c' = 0 /\ m_ackedBytesTotal c' = 0)
      \/ (m_ackedBytesTotal c' = U32.add (m_ackedBytesTotal c) acked
          /\ (m_ackedBytesEcn c' = U32.add (m_ackedBytesEcn c) acked
              \/ m_ackedBytesEcn c' = m_ackedBytesEcn c)))
  /\ (forall (ge : SequenceNumber32 -> SequenceNumber32 -> bool)
             (calls : list AckCall) (alpha g : float) (useEct0 : bool),
         total_fits ge calls (constructor alpha g useEct0) = true ->
         m_ackedBytesEcn (run ge calls (constructor alpha g useEct0))
         <= m_ackedBytesTotal (run ge calls (constructor alpha g useEct0))).
Proof.
  split.
  - exact PktsAcked_counters.
  - intros ge calls alpha g useEct0. apply run_keeps_order. cbn. lia.
Qed.

Lemma ackedBytesEcn_within_total_witness :
  total_fits seq_ge four_small_acks fresh_lgc = true
  /\ m_ackedBytesEcn (run seq_ge four_small_acks fresh_lgc) = 1448
  /\ m_ackedBytesTotal (run seq_ge four_small_acks fresh_lgc) = 2896
  /\ m_ackedBytesEcn (run seq_ge four_small_acks fresh_lgc)
     <= m_ackedBytesTotal (run seq_ge four_small_acks fresh_lgc).
Proof.
  split; [reflexivity|]. split; [reflexivity|]. split; [reflexivity|].
  exact (proj2 ackedBytesEcn_within_total
               seq_ge four_small_acks 1%float 0.0625%float true eq_refl).
Defined.

(** C9 as stated fails: after two acknowledgements of 2,896,000,000 bytes
    each, the second with ECN-Echo and neither closing the window, the
    32-bit total has wrapped to 1,497,032,704 while the marked bytes are
    2,896,000,000. *)
Lemma ackedBytesEcn_exceeds_wrapped_total :
  m_ackedBytesTotal (run seq_ge two_large_acks fresh_lgc) = 1497032704
  /\ m_ackedBytesEcn (run seq_ge two_large_acks fresh_lgc) = 2896000000
  /\ m_ackedBytesTotal (run seq_ge two_large_acks fresh_lgc)
     < m_ackedBytesEcn (run seq_ge two_large_acks fresh_lgc).
Proof.
  repeat split.
Qed.

(** *** The window reduction *)

(** [SFtrunc] is the integer part: of a positive double [m * 2^e] it
    returns the [z] with [z <= m * 2^e < z + 1]. *)
Lemma SFtrunc_integer_part (m : positive) (e z : Z) :
  Dbl.SFtrunc (S754_finite false m e) = Some z ->
  (0 <= e -> z = Z.pos m * 2 ^ e)%Z
  /\ (e < 0 -> z * 2 ^ (- e) <= Z.pos m < (z + 1) * 2 ^ (- e))%Z.
Proof.
  unfold Dbl.SFtrunc. intros [= <-]. split; intros He.
  - destruct e as [|p|p]; try lia; now rewrite Z.shiftl_mul_pow2 by lia.
  - destruct e as [|p|p]; try lia.
    rewrite Z.shiftr_div_pow2 by lia.
    change (- Z.neg p)%Z with (Z.pos p).
    assert (Hpow : (0 < 2 ^ Z.pos p)%Z) by (apply Z.pow_pos_nonneg; lia).
    pose proof (Z.div_mod (Z.pos m) (2 ^ Z.pos p)) as Hdm.
    pose proof (Z.mod_pos_bound (Z.pos m) (2 ^ Z.pos p) Hpow) as Hb.
    nia.
Qed.

(** C5 as amended -- [GetSsThresh] returns the double product
    [w * (1 - alpha / 2)] converted to [uint32_t], that is, its integer
    part (the conversion is not defined when the integer part is not a
    32-bit unsigned value): for a positive product [m * 2^e] the result
    [r] satisfies [r <= m * 2^e < r + 1].  The call leaves the estimator
    as it was, and the result depends on the window and on alpha only,
    not on [bytesInFlight] nor on anything else of the connection or of
    the estimator. *)
Theorem GetSsThresh_integer_part :
  (forall (tcb : TcpSocketState) (bytesInFlight : N) (c : TcpLgc),
      GetSsThresh tcb bytesInFlight c
      = (Dbl.to_uint32 (Dbl.of_N (m_cWnd tcb) * (1 - m_alpha c / 2))%float, c))
  /\ (forall (tcb : TcpSocketState) (bytesInFlight r : N) (c : TcpLgc),
         fst (GetSsThresh tcb bytesInFlight c) = Some r ->
         Dbl.trunc (Dbl.of_N (m_cWnd tcb) * (1 - m_alpha c / 2))%float
         = Some (Z.of_N r)
         /\ r < U32.modulus
         /\ (forall (m : positive) (e : Z),
                Prim2SF (Dbl.of_N (m_cWnd tcb) * (1 - m_alpha c / 2))%float
                = S754_finite false m e ->
                (0 <= e -> Z.of_N r = Z.pos m * 2 ^ e)%Z
                /\ (e < 0 -> Z.of_N r * 2 ^ (- e) <= Z.pos m
                             < (Z.of_N r + 1) * 2 ^ (- e))%Z))
  /\ (forall (tcb tcb' : TcpSocketState) (bytesInFlight bytesInFlight' : N)
             (c c' : TcpLgc),
         m_cWnd tcb' = m_cWnd tcb -> m_alpha c' = m_alpha c ->
         fst (GetSsThresh tcb' bytesInFlight' c')
         = fst (GetSsThresh tcb bytesInFlight c)).
Proof.
  assert (Heq : forall tcb bytesInFlight c,
             GetSsThresh tcb bytesInFlight c
             = (Dbl.to_uint32 (Dbl.of_N (m_cWnd tcb) * (1 - m_alpha c / 2))%float, c)).
  { intros. unfold GetSsThresh. now rewrite double_mul_comm. }
  split; [exact Heq|split].
  - intros tcb bytesInFlight r c. rewrite Heq. cbn [fst]. intros Hr.
    assert (Htrunc : Dbl.trunc (Dbl.of_N (m_cWnd tcb) * (1 - m_alpha c / 2))%float
                     = Some (Z.of_N r)).
    { unfold Dbl.to_uint32 in Hr.
      destruct (Dbl.trunc _) as [z|]; [|discriminate].
      destruct ((0 <=? z)%Z && (z <? 2 ^ 32)%Z) eqn:Hrange; [|discriminate].
      apply andb_prop in Hrange. destruct Hrange as [Hlo _].
      apply Z.leb_le in Hlo. injection Hr as <-. now rewrite Z2N.id. }
    split; [exact Htrunc|]. split; [eapply to_uint32_range, Hr|].
    intros m e Hsf. apply SFtrunc_integer_part.
    unfold Dbl.trunc in Htrunc. now rewrite Hsf in Htrunc.
  - intros tcb tcb' b b' c c' Hw Ha. rewrite !Heq. cbn [fst]. now rewrite Hw, Ha.
Qed.

Lemma GetSsThresh_integer_part_witness :
  fst (GetSsThresh tiny_window 0 saturated) = Some 1
  /\ Dbl.trunc (Dbl.of_N (m_cWnd tiny_window) * (1 - m_alpha saturated / 2))%float
     = Some 1%Z
  /\ m_cWnd (connection 3 536 77 7 ECN_CE_RCVD) = m_cWnd tiny_window
  /\ fst (GetSsThresh (connection 3 536 77 7 ECN_CE_RCVD) 4000 saturated)
     = fst (GetSsThresh tiny_window 0 saturated).
Proof.
  destruct GetSsThresh_integer_part as (_ & Htrunc & Hpure).
  split; [reflexivity|]. split; [|split; [reflexivity|]].
  - exact (proj1 (Htrunc tiny_window 0 1 saturated eq_refl)).
  - exact (Hpure tiny_window (connection 3 536 77 7 ECN_CE_RCVD) 0 4000
                 saturated saturated eq_refl eq_refl).
Defined.

(** C5 as stated fails: with a window of 3 bytes and alpha 1 the product
    [w * (1 - alpha / 2)] is 1.5 and [GetSsThresh] returns 1. *)
Lemma GetSsThresh_drops_fraction :
  (Dbl.of_N (m_cWnd tiny_window) * (1 - m_alpha saturated / 2))%float = 1.5%float
  /\ fst (GetSsThresh tiny_window 0 saturated) = Some 1
  /\ Dbl.of_N 1 <> 1.5%float.
Proof.
  split; [reflexivity|]. split; [reflexivity|].
  apply double_neq. vm_compute. discriminate.
Qed.

(** *** The seed of alpha *)

(** C7 as amended -- [InitializeDctcpAlpha] aborts exactly when the
    estimator has been marked initialized, which [Init] does and
    [InitializeDctcpAlpha] itself does not: after [Init] every seed is
    rejected, for every estimator and every value; before it, a seed is
    accepted, replaces alpha and leaves the estimator not initialized, so
    that a second seed is accepted as well and overwrites the first. *)
Theorem InitializeDctcpAlpha_locked_by_Init :
  (forall (tcb : TcpSocketState) (c : TcpLgc) (a : float),
      InitializeDctcpAlpha a (fst (Init tcb c))
      = Abort "DCTCP has already been initialized"%string)
  /\ (forall (c : TcpLgc) (a : float),
         m_initialized c = true ->
         InitializeDctcpAlpha a c = Abort "DCTCP has already been initialized"%string)
  /\ (forall (c : TcpLgc) (a : float),
         m_initialized c = false ->
         InitializeDctcpAlpha a c = Ok (set_alpha a c)
         /\ m_alpha (set_alpha a c) = a
         /\ m_initialized (set_alpha a c) = false)
  /\ (forall (c : TcpLgc) (a b : float),
         m_initialized c = false ->
         exists c1 c2,
           InitializeDctcpAlpha a c = Ok c1
           /\ InitializeDctcpAlpha b c1 = Ok c2
           /\ m_alpha c2 = b).
Proof.
  unfold InitializeDctcpAlpha. split; [|split; [|split]].
  - intros tcb c a. reflexivity.
  - intros c a ->. reflexivity.
  - intros c a Hinit. rewrite Hinit. repeat split. exact Hinit.
  - intros c a b Hinit. rewrite Hinit.
    exists (set_alpha a c), (set_alpha b (set_alpha a c)).
    split; [reflexivity|]. cbn [set_alpha m_initialized]. rewrite Hinit.
    split; reflexivity.
Qed.

Lemma InitializeDctcpAlpha_locked_by_Init_witness :
  m_initialized (fst (Init tiny_window fresh_lgc)) = true
  /\ InitializeDctcpAlpha 0.25%float (fst (Init tiny_window fresh_lgc))
     = Abort "DCTCP has already been initialized"%string.
Proof.
  split; [reflexivity|].
  exact (proj1 (proj2 InitializeDctcpAlpha_locked_by_Init)
               (fst (Init tiny_window fresh_lgc)) 0.25%float eq_refl).
Defined.

(** C7 as stated fails: on a new estimator a first seed of 0.5 and a
    second of 0.25 are both accepted, and alpha ends at 0.25. *)
Lemma InitializeDctcpAlpha_accepts_second_seed :
  InitializeDctcpAlpha 0.5%float fresh_lgc = Ok (set_alpha 0.5%float fresh_lgc)
  /\ InitializeDctcpAlpha 0.25%float (set_alpha 0.5%float fresh_lgc)
     = Ok (set_alpha 0.25%float (set_alpha 0.5%float fresh_lgc))
  /\ m_alpha (set_alpha 0.25%float (set_alpha 0.5%float fresh_lgc)) = 0.25%float.
Proof.
  repeat split.
Qed.

End LgcProperties.

(** * Further properties *)

(** ** Order of doubles *)

Section DoubleOrder.
Local Open Scope float_scope.

Lemma SFltb_leb_trans (x y z : spec_float) :
  SFltb x y = true -> SFleb y z = true -> SFltb x z = true.
Proof.
  unfold SFltb, SFleb.
  destruct x as [sx|sx| |sx mx ex], y as [sy|sy| |sy my ey],
           z as [sz|sz| |sz mz ez]; cbn;
    try discriminate; try reflexivity;
    repeat match goal with
           | s : bool |- _ => destruct s
           end; cbn; try discriminate; try reflexivity;
    repeat match goal with
           | |- context [(?a ?= ?b)%Z] => destruct (Z.compare_spec a b)
           | |- context [Pos.compare_cont Eq ?a ?b] =>
               change (Pos.compare_cont Eq a b) with (Pos.compare a b);
               destruct (Pos.compare_spec a b)
           end; cbn; try discriminate; try reflexivity; try lia.
Qed.

Lemma double_ltb_leb_trans (x y z : float) :
  (x <? y) = true -> (y <=? z) = true -> (x <? z) = true.
Proof.
  rewrite !FloatAxioms.ltb_spec, FloatAxioms.leb_spec. apply SFltb_leb_trans.
Qed.
End DoubleOrder.

(** ** Runs of the queue discipline *)

Section ShqRuns.
Import Sim Shq Samples ShqHistory.

(** [DoEnqueue] in one equation. *)
Lemma DoEnqueue_unfold (item : QueueDiscItem) (d : ShqQueueDisc) :
  let d1 := set_uv (snd (GetValue (m_uv d)))
                   (set_countBytes (U32.add (m_countBytes d) (GetSize item)) d) in
  let append i := mkQueue (q_packets (internalQueue d) ++ [i])
                          (q_maxSize (internalQueue d)) in
  DoEnqueue item d
  = if fits item d then
      if (fst (GetValue (m_uv d)) <? m_markProb d)%float then
        if m_useEcn (attrs d) && IsEcnCapable item
        then (true, set_internalQueue
                      (append (snd (ItemMark item)))
                      (trace (Marked (snd (ItemMark item)) UNFORCED_MARK) d1))
        else (false, DropBeforeEnqueue item UNFORCED_DROP d1)
      else (true, set_internalQueue (append item) d1)
    else (false, DropBeforeEnqueue item FORCED_DROP d).
Proof.
  cbv zeta. unfold fits.
  destruct (QueueSizeGt _ _) eqn:Hgt; cbn [negb].
  - unfold DoEnqueue. now rewrite Hgt.
  - apply (DoEnqueue_admitted item d Hgt).
Qed.

(** The three decisions [DoEnqueue] takes, in a goal or everywhere. *)
Ltac DoEnqueue_decisions item d :=
  rewrite (DoEnqueue_unfold item d); cbv zeta;
  destruct (fits item d) eqn:Hfits;
  [ destruct (fst (GetValue (m_uv d)) <? m_markProb d)%float eqn:Hsel;
    [ destruct (m_useEcn (attrs d) && IsEcnCapable item) eqn:Hmark | ]
  | ].

(** What [DoEnqueue] never touches. *)
Lemma DoEnqueue_untouched (item : QueueDiscItem) (d : ShqQueueDisc) :
  let d' := snd (DoEnqueue item d) in
  attrs d' = attrs d /\ m_qDelay d' = m_qDelay d /\ m_maxBytes d' = m_maxBytes d
  /\ m_rtrsEvent d' = m_rtrsEvent d /\ m_markProb d' = m_markProb d
  /\ m_qAvg d' = m_qAvg d
  /\ uv_values (m_uv d') = uv_values (m_uv d)
  /\ q_maxSize (internalQueue d') = q_maxSize (internalQueue d).
Proof.
  cbv zeta. DoEnqueue_decisions item d; cbn; repeat split.
Qed.

Lemma stored_as_refl (item : QueueDiscItem) : stored_as item item.
Proof. repeat split. now left. Qed.

Lemma stored_as_marked (item : QueueDiscItem) :
  IsEcnCapable item = true -> stored_as item (snd (ItemMark item)).
Proof.
  unfold ItemMark, IsEcnCapable, stored_as. intros Hcap.
  destruct (item_ecn item) eqn:Hecn; try discriminate; cbn; rewrite ?Hecn;
    repeat split; right; split; congruence.
Qed.

(** A packet is accepted exactly when it is appended, in its stored
    form, to the queue; otherwise the queue is as before. *)
Lemma DoEnqueue_queue (item : QueueDiscItem) (d : ShqQueueDisc) :
  (fst (DoEnqueue item d) = false
   /\ internalQueue (snd (DoEnqueue item d)) = internalQueue d)
  \/ (fst (DoEnqueue item d) = true
      /\ fits item d = true
      /\ exists stored,
          stored_as item stored
          /\ q_packets (internalQueue (snd (DoEnqueue item d)))
             = q_packets (internalQueue d) ++ [stored]).
Proof.
  DoEnqueue_decisions item d; cbn.
  - right. repeat split. exists (snd (ItemMark item)). split; [|reflexivity].
    apply stored_as_marked. apply andb_prop in Hmark. tauto.
  - left. split; [reflexivity|]. now destruct (internalQueue d).
  - right. repeat split. exists item. split; [apply stored_as_refl|reflexivity].
  - left. split; [reflexivity|]. now destruct (internalQueue d).
Qed.

Lemma DoDequeue_cases (d : ShqQueueDisc) (s : Simulator) :
  (q_packets (internalQueue d) = [] /\ DoDequeue d s = Ok (None, d))
  \/ (exists item rest d',
         q_packets (internalQueue d) = item :: rest
         /\ DoDequeue d s = Ok (Some item, d')
         /\ q_packets (internalQueue d') = rest
         /\ q_maxSize (internalQueue d') = q_maxSize (internalQueue d)
         /\ (total_bytes rest = 0%N -> m_qDelay d' = 0%Z)
         /\ attrs d' = attrs d /\ m_countBytes d' = m_countBytes d
         /\ m_markProb d' = m_markProb d /\ m_qAvg d' = m_qAvg d
         /\ m_rtrsEvent d' = m_rtrsEvent d /\ m_uv d' = m_uv d
         /\ traced d' = traced d /\ m_maxBytes d' = m_maxBytes d).
Proof.
  unfold DoDequeue, IsEmpty, QueueDequeue.
  destruct (q_packets (internalQueue d)) as [|item rest] eqn:Hq.
  - left. split; reflexivity.
  - right. exists item, rest. unfold GetNBytes. cbn.
    destruct (N.eqb_spec (total_bytes rest) 0) as [Hz|Hnz];
      eexists; (split; [reflexivity|]); (split; [reflexivity|]); cbn;
      repeat split; intros; congruence.
Qed.

(** Induction over a recorded run. *)
Lemma record_invariant (P : History -> World -> Prop) (allowed : Op -> bool) :
  (forall h w op, allowed op = true -> P h w -> P (observe h w op) (step w op)) ->
  forall ops h w,
    forallb allowed ops = true -> P h w ->
    P (fst (record ops h w)) (snd (record ops h w)).
Proof.
  intros Hstep. induction ops as [|op ops IH]; intros h w Hall Hp; cbn in *.
  - exact Hp.
  - apply andb_prop in Hall. destruct Hall as [Hop Hops].
    apply IH; [exact Hops|]. apply Hstep; assumption.
Qed.

Lemma record_run (ops : list Op) (h : History) (w : World) :
  snd (record ops h w) = run ops w.
Proof.
  revert h w. induction ops as [|op ops IH]; intros h w; cbn.
  - reflexivity.
  - apply IH.
Qed.

Lemma forallb_any (ops : list Op) : forallb (fun _ : Op => true) ops = true.
Proof. induction ops; cbn; auto. Qed.

(** *** Conservation *)

Lemma conservation_step (q0 : list QueueDiscItem) (h : History) (w : World) (op : Op) :
  Forall2 stored_as (q0 ++ accepted h)
          (delivered h ++ q_packets (internalQueue (fst w))) ->
  Forall2 stored_as (q0 ++ accepted (observe h w op))
          (delivered (observe h w op)
           ++ q_packets (internalQueue (fst (step w op)))).
Proof.
  destruct w as [d s]. cbn [fst snd]. intros Hinv.
  destruct op as [item| | |dt]; cbn [observe step fst snd].
  - destruct (DoEnqueue_queue item d) as [[Hr Hq] | (Hr & _ & stored & Hst & Hq)];
      rewrite Hr; cbn [accepted delivered].
    + now rewrite Hq.
    + rewrite Hq, !app_assoc. apply Forall2_app; [exact Hinv|].
      constructor; [exact Hst|constructor].
  - destruct (DoDequeue_cases d s) as [[Hq Hr] | (item & rest & d' & Hq & Hr & Hq' & _)];
      rewrite Hr; cbn [accepted delivered fst].
    + exact Hinv.
    + rewrite Hq', <- app_assoc. cbn [app]. now rewrite <- Hq.
  - exact Hinv.
  - exact Hinv.
Qed.

(** X1 -- whatever is offered, dequeued and recomputed, the packets for
    which [DoEnqueue] returned true are, in order, those [DoDequeue] has
    returned followed by those still queued (after the packets queued at
    the start): none is lost, duplicated or reordered, each keeps its
    size and timestamp, and its ECN field is as offered or, for an
    ECN-capable packet only, congestion-experienced. *)
Theorem accepted_packets_are_conserved (ops : list Op) (d : ShqQueueDisc) (s : Simulator) :
  Forall2 stored_as
          (q_packets (internalQueue d) ++ accepted (history ops (d, s)))
          (delivered (history ops (d, s))
           ++ q_packets (internalQueue (fst (run ops (d, s))))).
Proof.
  unfold history. rewrite <- (record_run ops (mkHistory [] [] []) (d, s)).
  apply (record_invariant
           (fun h w => Forall2 stored_as (q_packets (internalQueue d) ++ accepted h)
                               (delivered h ++ q_packets (internalQueue (fst w))))
           (fun _ => true)).
  - intros h w op _. apply conservation_step.
  - apply forallb_any.
  - cbn. rewrite app_nil_r.
    induction (q_packets (internalQueue d)); constructor;
      [apply stored_as_refl|assumption].
Qed.

(** *** The reported delay *)

Lemma qDelay_step (w : World) (op : Op) :
  (GetNBytes (internalQueue (fst w)) = 0%N -> GetQueueDelay (fst w) = 0%Z) ->
  GetNBytes (internalQueue (fst (step w op))) = 0%N ->
  GetQueueDelay (fst (step w op)) = 0%Z.
Proof.
  destruct w as [d s]. unfold GetNBytes, GetQueueDelay. cbn [fst].
  intros Hinv. destruct op as [item| | |dt]; cbn [step fst].
  - destruct (DoEnqueue_untouched item d) as (_ & Hdelay & _).
    cbv zeta in Hdelay. rewrite Hdelay.
    destruct (DoEnqueue_queue item d) as [[_ Hq] | (_ & _ & stored & _ & Hq)];
      rewrite Hq; [exact Hinv|].
    rewrite total_bytes_app. intros Hz. apply Hinv. lia.
  - destruct (DoDequeue_cases d s)
      as [[Hq Hr] | (item & rest & d' & Hq & Hr & Hq' & _ & Hzero & _)];
      rewrite Hr; cbn [fst].
    + exact Hinv.
    + rewrite Hq'. exact Hzero.
  - unfold CalculateProb, Schedule. cbn. exact Hinv.
  - exact Hinv.
Qed.

(** X2 -- if the reported queue delay is zero whenever the backing queue
    holds no byte, as it is for a new, empty discipline, then this stays
    so whatever packets arrive and leave and whenever the timer fires:
    [GetQueueDelay] never reports a stale delay for a drained queue. *)
Theorem drained_queue_reports_no_delay (ops : list Op) (d : ShqQueueDisc) (s : Simulator) :
  (GetNBytes (internalQueue d) = 0%N -> GetQueueDelay d = 0%Z) ->
  GetNBytes (internalQueue (fst (run ops (d, s)))) = 0%N ->
  GetQueueDelay (fst (run ops (d, s))) = 0%Z.
Proof.
  intros Hinv. rewrite <- (record_run ops (mkHistory [] [] []) (d, s)).
  apply (record_invariant
           (fun _ w => GetNBytes (internalQueue (fst w)) = 0%N ->
                       GetQueueDelay (fst w) = 0%Z)
           (fun _ => true)).
  - intros h w op _. apply qDelay_step.
  - apply forallb_any.
  - exact Hinv.
Qed.

Lemma drained_queue_reports_no_delay_witness :
  (GetNBytes (internalQueue small) = 0%N -> GetQueueDelay small = 0%Z)
  /\ GetNBytes (internalQueue
                  (fst (run [OpEnqueue (pkt 1000 0%Z ECN_ECT0);
                             OpEnqueue (pkt 400 0%Z ECN_NotECT);
                             OpAdvance 7000; OpDequeue; OpAdvance 500; OpDequeue]
                            (small, sim0)))) = 0%N
  /\ GetQueueDelay
       (fst (run [OpEnqueue (pkt 1000 0%Z ECN_ECT0);
                  OpEnqueue (pkt 400 0%Z ECN_NotECT);
                  OpAdvance 7000; OpDequeue; OpAdvance 500; OpDequeue]
                 (small, sim0))) = 0%Z.
Proof.
  assert (H0 : GetNBytes (internalQueue small) = 0%N -> GetQueueDelay small = 0%Z)
    by (intros _; reflexivity).
  split; [exact H0|]. split; [reflexivity|].
  exact (drained_queue_reports_no_delay
           [OpEnqueue (pkt 1000 0%Z ECN_ECT0); OpEnqueue (pkt 400 0%Z ECN_NotECT);
            OpAdvance 7000; OpDequeue; OpAdvance 500; OpDequeue]
           small sim0 H0 eq_refl).
Defined.

(** *** Between two recomputations *)

(** What [DoEnqueue] does when the draw falls on a known side of
    [markProb]. *)
Lemma DoEnqueue_decided (b : bool) (item : QueueDiscItem) (d : ShqQueueDisc) :
  (fst (GetValue (m_uv d)) <? m_markProb d)%float = b ->
  fst (DoEnqueue item d)
  = fits item d && (negb b || (m_useEcn (attrs d) && IsEcnCapable item))
  /\ q_packets (internalQueue (snd (DoEnqueue item d)))
     = q_packets (internalQueue d)
       ++ (if fst (DoEnqueue item d)
           then [if b then congestion_experienced item else item]
           else [])
  /\ (b = false ->
      traced (snd (DoEnqueue item d))
      = (if fits item d then [] else [DroppedBeforeEnqueue item FORCED_DROP])
        ++ traced d).
Proof.
  intros Hb. DoEnqueue_decisions item d; cbn; subst b;
    rewrite ?app_nil_r; repeat split; try discriminate.
  unfold ItemMark. apply andb_prop in Hmark. destruct Hmark as [_ ->].
  reflexivity.
Qed.

(** Without a recomputation, the probability and the stream of draws
    are what they were. *)
Lemma regime_step (w : World) (op : Op) :
  is_timer op = false ->
  m_markProb (fst (step w op)) = m_markProb (fst w)
  /\ uv_values (m_uv (fst (step w op))) = uv_values (m_uv (fst w))
  /\ attrs (fst (step w op)) = attrs (fst w)
  /\ m_qAvg (fst (step w op)) = m_qAvg (fst w).
Proof.
  destruct w as [d s]. destruct op as [item| | |dt]; cbn [step fst is_timer];
    try discriminate; intros _.
  - destruct (DoEnqueue_untouched item d) as (Ha & _ & _ & _ & Hp & Hq & Hu & _).
    auto.
  - destruct (DoDequeue_cases d s)
      as [[_ Hr] | (item & rest & d' & _ & Hr & _ & _ & _ & Ha & _ & Hp & Hq & _ & Hu & _)];
      rewrite Hr; cbn [fst]; [auto|]. rewrite Hu. auto.
  - auto.
Qed.

Lemma no_timer_negb (op : Op) : negb (is_timer op) = true -> is_timer op = false.
Proof. now destruct (is_timer op). Qed.

(** The run under a constant decision [b] of [ShouldMark]. *)
Lemma regime_run (b : bool) (d : ShqQueueDisc) (s : Simulator) (ops : list Op) :
  (forall n, (uv_values (m_uv d) n <? m_markProb d)%float = b) ->
  no_timer ops = true ->
  let h := history ops (d, s) in
  let d' := fst (run ops (d, s)) in
  accepted h
  = (if b
     then if m_useEcn (attrs d) then filter IsEcnCapable (counted h) else []
     else counted h)
  /\ q_packets (internalQueue d)
     ++ map (fun i => if b then congestion_experienced i else i) (accepted h)
     = delivered h ++ q_packets (internalQueue d')
  /\ (b = false ->
      exists drops, traced d' = drops ++ traced d /\ Forall forced drops).
Proof.
  intros Hdraw Hops. cbv zeta. unfold history.
  rewrite <- (record_run ops (mkHistory [] [] []) (d, s)).
  pose (P := fun (h : History) (w : World) =>
    (m_markProb (fst w) = m_markProb d
     /\ uv_values (m_uv (fst w)) = uv_values (m_uv d)
     /\ attrs (fst w) = attrs d)
    /\ accepted h
       = (if b
          then if m_useEcn (attrs d) then filter IsEcnCapable (counted h) else []
          else counted h)
    /\ q_packets (internalQueue d)
       ++ map (fun i => if b then congestion_experienced i else i) (accepted h)
       = delivered h ++ q_packets (internalQueue (fst w))
    /\ (b = false ->
        exists drops, traced (fst w) = drops ++ traced d /\ Forall forced drops)).
  assert (HP : P (fst (record ops (mkHistory [] [] []) (d, s)))
                 (snd (record ops (mkHistory [] [] []) (d, s)))).
  { apply (record_invariant P (fun op => negb (is_timer op))).
    - intros h w op Hop ((Hp & Hu & Ha) & Hacc & Hq & Htr).
      apply no_timer_negb in Hop.
      split.
      { destruct (regime_step w op Hop) as (Hp' & Hu' & Ha' & _).
        rewrite Hp', Hu', Ha'. auto. }
      destruct w as [d1 s1]. cbn [fst snd] in *.
      destruct op as [item| | |dt]; cbn [observe step fst snd accepted delivered counted];
        try discriminate.
      + assert (Hb : (fst (GetValue (m_uv d1)) <? m_markProb d1)%float = b).
        { unfold GetValue. cbn [fst]. rewrite Hu, Hp. apply Hdraw. }
        destruct (DoEnqueue_decided b item d1 Hb) as (Hr & Hq' & Htr').
        rewrite Hq', Hr, Ha. split; [|split].
        * destruct (fits item d1); cbn [andb]; [|exact Hacc].
          destruct b; cbn [negb orb].
          -- destruct (m_useEcn (attrs d)); cbn [andb].
             ++ rewrite filter_app. cbn [filter].
                destruct (IsEcnCapable item); [now rewrite Hacc|].
                now rewrite app_nil_r.
             ++ exact Hacc.
          -- now rewrite Hacc.
        * destruct (fits item d1 && (negb b || m_useEcn (attrs d) && IsEcnCapable item)).
          -- rewrite map_app. cbn [map]. rewrite !app_assoc. now rewrite Hq.
          -- now rewrite app_nil_r.
        * intros Hf. destruct (Htr Hf) as (drops & Hd & Hall).
          rewrite (Htr' Hf), Hd.
          destruct (fits item d1); cbn [app].
          -- exists drops. auto.
          -- exists (DroppedBeforeEnqueue item FORCED_DROP :: drops). split; [reflexivity|].
             constructor; [now exists item|exact Hall].
      + destruct (DoDequeue_cases d1 s1)
          as [[Hq1 Hr] | (item & rest & d' & Hq1 & Hr & Hq' & _ & _ & _ & _ & _ & _ & _ & _ & Htr' & _)];
          rewrite Hr; cbn [fst accepted delivered counted].
        * auto.
        * split; [exact Hacc|]. split.
          -- rewrite Hq', <- app_assoc. cbn [app]. now rewrite <- Hq1.
          -- intros Hf. rewrite Htr'. auto.
      + auto.
    - exact Hops.
    - unfold P. cbn. rewrite app_nil_r.
      split; [auto|]. split; [now destruct b, (m_useEcn (attrs d))|].
      split; [reflexivity|]. intros _. exists []. auto. }
  destruct HP as (_ & Hacc & Hq & Htr). auto.
Qed.

Lemma InitializeParams_result (d0 d : ShqQueueDisc) :
  InitializeParams d0 = Some d ->
  m_countBytes d = 0%N /\ m_markProb d = 0%float /\ m_qAvg d = 0%float
  /\ m_uv d = m_uv d0 /\ internalQueue d = internalQueue d0
  /\ traced d = traced d0 /\ attrs d = attrs d0.
Proof.
  unfold InitializeParams. cbn.
  destruct (Dbl.to_uint32 _); [|discriminate].
  intros [= <-]. cbn. repeat split.
Qed.

(** X3 -- after [InitializeParams] and until the first recomputation,
    with draws that are not negative, the discipline is a plain
    tail-drop FIFO: a packet is accepted exactly when it passes the
    capacity check, it is stored as offered (never marked), the only
    drops reported are forced drops, and what was accepted is what has
    been dequeued followed by what is queued. *)
Theorem tail_drop_before_first_recomputation
        (d0 d : ShqQueueDisc) (s : Simulator) (ops : list Op) :
  InitializeParams d0 = Some d ->
  draws_nonnegative (m_uv d0) ->
  no_timer ops = true ->
  let h := history ops (d, s) in
  let d' := fst (run ops (d, s)) in
  accepted h = counted h
  /\ q_packets (internalQueue d0) ++ accepted h
     = delivered h ++ q_packets (internalQueue d')
  /\ exists drops, traced d' = drops ++ traced d0 /\ Forall forced drops.
Proof.
  intros Hinit Hdraws Hops. cbv zeta.
  destruct (InitializeParams_result d0 d Hinit) as (_ & Hp & _ & Hu & Hq & Htr & _).
  assert (Hdraw : forall n, (uv_values (m_uv d) n <? m_markProb d)%float = false).
  { intros n. rewrite Hp, Hu. apply double_leb_not_ltb, Hdraws. }
  destruct (regime_run false d s ops Hdraw Hops) as (Hacc & Hcons & Hdrops).
  cbv zeta in *. rewrite map_id in Hcons. rewrite <- Hq, <- Htr. auto.
Qed.

Lemma tail_drop_before_first_recomputation_witness :
  InitializeParams (fresh scratch_attrs (mkQueueSize PACKETS 100)) = Some scratch_disc
  /\ no_timer (burst ++ [OpEnqueue (pkt 1500 0%Z ECN_ECT0); OpDequeue]) = true
  /\ List.length (accepted (history (burst ++ [OpEnqueue (pkt 1500 0%Z ECN_ECT0);
                                               OpDequeue])
                                    (scratch_disc, sim0))) = 100%nat
  /\ accepted (history (burst ++ [OpEnqueue (pkt 1500 0%Z ECN_ECT0); OpDequeue])
                       (scratch_disc, sim0))
     = counted (history (burst ++ [OpEnqueue (pkt 1500 0%Z ECN_ECT0); OpDequeue])
                        (scratch_disc, sim0)).
Proof.
  assert (Hdraws : draws_nonnegative
                     (m_uv (fresh scratch_attrs (mkQueueSize PACKETS 100))))
    by (intros n; reflexivity).
  split; [reflexivity|]. split; [reflexivity|]. split; [reflexivity|].
  exact (proj1 (tail_drop_before_first_recomputation
                  (fresh scratch_attrs (mkQueueSize PACKETS 100)) scratch_disc sim0
                  (burst ++ [OpEnqueue (pkt 1500 0%Z ECN_ECT0); OpDequeue])
                  eq_refl Hdraws eq_refl)).
Defined.

(** X4 -- while [markProb] is at least 1 and the draws are below 1,
    every packet that passes the capacity check is selected: until the
    next recomputation a discipline without ECN accepts nothing at all,
    and one with ECN accepts exactly the ECN-capable packets that fit and
    stores each of them congestion-experienced. *)
Theorem saturated_probability_selects_every_packet
        (d : ShqQueueDisc) (s : Simulator) (ops : list Op) :
  (1 <=? m_markProb d)%float = true ->
  draws_below_one (m_uv d) ->
  no_timer ops = true ->
  let h := history ops (d, s) in
  let d' := fst (run ops (d, s)) in
  accepted h
  = (if m_useEcn (attrs d) then filter IsEcnCapable (counted h) else [])
  /\ q_packets (internalQueue d) ++ map congestion_experienced (accepted h)
     = delivered h ++ q_packets (internalQueue d').
Proof.
  intros Hsat Hdraws Hops. cbv zeta.
  assert (Hdraw : forall n, (uv_values (m_uv d) n <? m_markProb d)%float = true).
  { intros n. eapply double_ltb_leb_trans; [apply Hdraws|exact Hsat]. }
  destruct (regime_run true d s ops Hdraw Hops) as (Hacc & Hcons & _).
  split; [exact Hacc|exact Hcons].
Qed.

Lemma saturated_probability_selects_every_packet_witness :
  (1 <=? m_markProb (fst (run burst_then_timer (scratch_disc, sim0))))%float = true
  /\ accepted (history [OpDequeue; OpEnqueue (pkt 1500 9%Z ECN_NotECT);
                        OpEnqueue (pkt 1500 9%Z ECN_ECT1)]
                       (run burst_then_timer (scratch_disc, sim0)))
     = [pkt 1500 9%Z ECN_ECT1]
  /\ accepted (history [OpDequeue; OpEnqueue (pkt 1500 9%Z ECN_NotECT);
                        OpEnqueue (pkt 1500 9%Z ECN_ECT1)]
                       (run burst_then_timer (scratch_disc, sim0)))
     = (if m_useEcn (attrs (fst (run burst_then_timer (scratch_disc, sim0))))
        then filter IsEcnCapable
               (counted (history [OpDequeue; OpEnqueue (pkt 1500 9%Z ECN_NotECT);
                                  OpEnqueue (pkt 1500 9%Z ECN_ECT1)]
                                 (run burst_then_timer (scratch_disc, sim0))))
        else []).
Proof.
  assert (Hdraws : draws_below_one
                     (m_uv (fst (run burst_then_timer (scratch_disc, sim0)))))
    by (intros n; vm_compute; reflexivity).
  split; [reflexivity|]. split; [reflexivity|].
  exact (proj1 (saturated_probability_selects_every_packet
                  (fst (run burst_then_timer (scratch_disc, sim0)))
                  (snd (run burst_then_timer (scratch_disc, sim0)))
                  [OpDequeue; OpEnqueue (pkt 1500 9%Z ECN_NotECT);
                   OpEnqueue (pkt 1500 9%Z ECN_ECT1)]
                  eq_refl Hdraws eq_refl)).
Defined.

(** *** What the counter holds at a recomputation *)

Lemma U32_add_wrap_l (a b : N) : U32.add (U32.wrap a) b = U32.wrap (a + b).
Proof.
  unfold U32.add, U32.wrap. apply N.Div0.add_mod_idemp_l.
Qed.

Lemma DoEnqueue_countBytes (item : QueueDiscItem) (d : ShqQueueDisc) :
  m_countBytes (snd (DoEnqueue item d))
  = if fits item d then U32.add (m_countBytes d) (GetSize item) else m_countBytes d.
Proof.
  DoEnqueue_decisions item d; reflexivity.
Qed.

(** X5 -- starting with [countBytes = 0] (as [InitializeParams] and every
    recomputation leave it) and until the next recomputation,
    [countBytes] is the total size, modulo 2^32, of the packets offered
    that passed the capacity check, whether they were then accepted or
    dropped by the probabilistic path and whether or not they have left
    since; the recomputation adds the backlog times the mean packet
    size to it, so that a packet still queued is counted a second time,
    and feeds the sum to the average. *)
Theorem countBytes_counts_arrivals_then_backlog
        (d : ShqQueueDisc) (s : Simulator) (ops : list Op) :
  m_countBytes d = 0%N ->
  no_timer ops = true ->
  let h := history ops (d, s) in
  let d' := fst (run ops (d, s)) in
  let s' := snd (run ops (d, s)) in
  m_countBytes d' = U32.wrap (total_bytes (counted h))
  /\ m_qAvg (fst (CalculateProb d' s'))
     = (m_qAvg d * (1 - m_alpha (attrs d))
        + Dbl.of_N (U32.wrap (total_bytes (counted h)
                              + U32.mul (U32.wrap (occupancy d'))
                                        (m_meanPktSize (attrs d))))
          * m_alpha (attrs d))%float.
Proof.
  intros Hzero Hops. cbv zeta. unfold history.
  rewrite <- (record_run ops (mkHistory [] [] []) (d, s)).
  pose (P := fun (h : History) (w : World) =>
    m_countBytes (fst w) = U32.wrap (total_bytes (counted h))
    /\ m_qAvg (fst w) = m_qAvg d /\ attrs (fst w) = attrs d).
  assert (HP : P (fst (record ops (mkHistory [] [] []) (d, s)))
                 (snd (record ops (mkHistory [] [] []) (d, s)))).
  { apply (record_invariant P (fun op => negb (is_timer op))).
    - intros h w op Hop (Hc & Hq & Ha). apply no_timer_negb in Hop.
      destruct (regime_step w op Hop) as (_ & _ & Ha' & Hq').
      unfold P. rewrite Ha', Hq'. split; [|auto].
      destruct w as [d1 s1]. cbn [fst snd] in *.
      destruct op as [item| | |dt]; cbn [observe step fst snd counted];
        try discriminate.
      + rewrite DoEnqueue_countBytes.
        destruct (fits item d1); [|exact Hc].
        rewrite Hc, U32_add_wrap_l, total_bytes_app. reflexivity.
      + destruct (DoDequeue_cases d1 s1)
          as [[_ Hr] | (item & rest & d' & _ & Hr & _ & _ & _ & _ & Hc' & _)];
          rewrite Hr; cbn [fst counted]; [exact Hc|]. now rewrite Hc'.
      + exact Hc.
    - exact Hops.
    - unfold P. cbn. rewrite Hzero. repeat split. }
  destruct HP as (Hc & Hq & Ha). split; [exact Hc|].
  unfold CalculateProb, Schedule. cbn. rewrite Hc, Hq, Ha, U32_add_wrap_l.
  reflexivity.
Qed.

Lemma countBytes_counts_arrivals_then_backlog_witness :
  m_countBytes scratch_disc = 0%N
  /\ no_timer burst = true
  /\ total_bytes (counted (history burst (scratch_disc, sim0))) = 150000%N
  /\ m_countBytes (fst (run burst (scratch_disc, sim0))) = 150000%N
  /\ m_qAvg (fst (CalculateProb (fst (run burst (scratch_disc, sim0)))
                                (snd (run burst (scratch_disc, sim0)))))
     = 75000%float.
Proof.
  split; [reflexivity|]. split; [reflexivity|]. split; [reflexivity|].
  destruct (countBytes_counts_arrivals_then_backlog scratch_disc sim0 burst
              eq_refl eq_refl) as [Hc Hq].
  split; [exact Hc|exact Hq].
Defined.

(** *** Reports *)

Lemma step_reports (w : World) (op : Op) :
  exists filed,
    traced (fst (step w op)) = filed ++ traced (fst w)
    /\ drop_reports filed
       = match op with
         | OpEnqueue item =>
             if fst (DoEnqueue item (fst w)) then []
             else [(item, if fits item (fst w) then UNFORCED_DROP else FORCED_DROP)]
         | _ => []
         end
    /\ Forall (fun r : QueueDiscItem * string =>
                item_ecn (fst r) = ECN_CE /\ snd r = UNFORCED_MARK)
              (mark_reports filed).
Proof.
  destruct w as [d s]. destruct op as [item| | |dt]; cbn [step fst snd].
  - DoEnqueue_decisions item d; cbn [fst snd].
    + apply andb_prop in Hmark. destruct Hmark as [_ Hcap].
      exists [Marked (snd (ItemMark item)) UNFORCED_MARK].
      split; [reflexivity|]. split; [reflexivity|].
      cbn. constructor; [|constructor]. cbn. unfold ItemMark. rewrite Hcap.
      split; reflexivity.
    + exists [DroppedBeforeEnqueue item UNFORCED_DROP]. repeat split. constructor.
    + exists []. repeat split. constructor.
    + exists [DroppedBeforeEnqueue item FORCED_DROP]. repeat split. constructor.
  - exists []. split; [|split; [reflexivity|constructor]].
    destruct (DoDequeue_cases d s)
      as [[_ Hr] | (item & rest & d' & _ & Hr & _ & _ & _ & _ & _ & _ & _ & _ & _ & Ht & _)];
      rewrite Hr; cbn [fst]; [reflexivity|exact Ht].
  - exists []. split; [|split; [reflexivity|constructor]].
    destruct d. reflexivity.
  - exists []. repeat split. constructor.
Qed.

Lemma drop_reports_app (l1 l2 : list TraceEvent) :
  drop_reports (l1 ++ l2) = drop_reports l1 ++ drop_reports l2.
Proof. apply flat_map_app. Qed.

Lemma mark_reports_app (l1 l2 : list TraceEvent) :
  mark_reports (l1 ++ l2) = mark_reports l1 ++ mark_reports l2.
Proof. apply flat_map_app. Qed.

(** X6 -- a run reports every packet it refuses exactly once, in order
    (newest first), with reason [FORCED_DROP] when the packet failed the
    capacity check and [UNFORCED_DROP] when it passed it, and reports no
    other drop: the backing queue never refuses a packet, and dequeues
    and recomputations report nothing.  Every mark it reports is of a
    packet that carries the congestion-experienced codepoint, with
    reason [UNFORCED_MARK]. *)
Theorem every_refusal_is_reported_once
        (ops : list Op) (d : ShqQueueDisc) (s : Simulator) :
  exists filed,
    traced (fst (run ops (d, s))) = filed ++ traced d
    /\ drop_reports filed
       = rev (map (fun r : QueueDiscItem * bool =>
                     (fst r, if snd r then UNFORCED_DROP else FORCED_DROP))
                  (refused ops (d, s)))
    /\ Forall (fun r : QueueDiscItem * string =>
                item_ecn (fst r) = ECN_CE /\ snd r = UNFORCED_MARK)
              (mark_reports filed).
Proof.
  revert d s. induction ops as [|op ops IH]; intros d s.
  - exists []. repeat split. constructor.
  - destruct (step_reports (d, s) op) as (f1 & Ht1 & Hd1 & Hm1).
    change (run (op :: ops) (d, s)) with (run ops (step (d, s) op)).
    destruct (step (d, s) op) as [d1 s1] eqn:Hstep. cbn [fst snd] in *.
    destruct (IH d1 s1) as (f2 & Ht2 & Hd2 & Hm2).
    exists (f2 ++ f1). rewrite Ht2, Ht1, app_assoc. split; [reflexivity|].
    rewrite drop_reports_app, mark_reports_app, Hd2, Hd1. split.
    + cbn [refused]. rewrite Hstep.
      destruct op as [item| | |dt]; cbn [fst snd];
        try (now rewrite app_nil_r).
      destruct (fst (DoEnqueue item d)); [now rewrite app_nil_r|].
      cbn [map rev fst snd]. reflexivity.
    + apply Forall_app. split; assumption.
Qed.

(** *** The random stream *)

(** X7 -- the discipline takes one draw from its random stream for
    each packet offered that passes the capacity check, and none
    otherwise: a packet refused for lack of room, a dequeue and a
    recomputation leave the stream where it was. *)
Theorem one_draw_per_packet_that_fits
        (ops : list Op) (d : ShqQueueDisc) (s : Simulator) :
  let h := history ops (d, s) in
  let d' := fst (run ops (d, s)) in
  uv_next (m_uv d') = (uv_next (m_uv d) + List.length (counted h))%nat
  /\ uv_values (m_uv d') = uv_values (m_uv d).
Proof.
  cbv zeta. unfold history.
  rewrite <- (record_run ops (mkHistory [] [] []) (d, s)).
  apply (record_invariant
           (fun h w => uv_next (m_uv (fst w))
                       = (uv_next (m_uv d) + List.length (counted h))%nat
                       /\ uv_values (m_uv (fst w)) = uv_values (m_uv d))
           (fun _ => true)).
  - intros h [d1 s1] op _ [Hn Hv]. cbn [fst] in *.
    destruct op as [item| | |dt]; cbn [observe step fst snd counted].
    + DoEnqueue_decisions item d1; cbn [fst snd]; cbn;
        rewrite ?length_app, ?Hn; cbn [List.length]; split; try lia; exact Hv.
    + destruct (DoDequeue_cases d1 s1)
        as [[_ Hr] | (item & rest & d' & _ & Hr & _ & _ & _ & _ & _ & _ & _ & _ & Hu & _)];
        rewrite Hr; cbn [fst counted]; [auto|]. rewrite Hu. auto.
    + destruct d1. cbn in *. auto.
    + auto.
  - apply forallb_any.
  - cbn. split; [lia|reflexivity].
Qed.

End ShqRuns.

(** ** Configuration check *)

Section ShqConfiguration.
Import Sim Shq ShqSetup.

(** X8 -- [CheckConfig] accepts exactly the disciplines without classes,
    without packet filters and with at most one internal queue.  On
    acceptance there is exactly one internal queue: the one that was
    there, or else a new empty one limited to the configured capacity;
    nothing else changes and a second check accepts again without a
    change.  A rejected discipline is left as it was. *)
Theorem CheckConfig_single_internal_queue (b : QueueDiscBase) :
  let ok := fst (CheckConfig b) in
  let b' := snd (CheckConfig b) in
  (ok = true <->
   GetNQueueDiscClasses b = 0%N /\ GetNPacketFilters b = 0%N
   /\ (List.length (internalQueues b) <= 1)%nat)
  /\ (ok = true ->
      internalQueues b'
      = [match internalQueues b with
         | [] => mkQueue [] (m_maxSize b)
         | q :: _ => q
         end]
      /\ nQueueDiscClasses b' = nQueueDiscClasses b
      /\ nPacketFilters b' = nPacketFilters b
      /\ m_maxSize b' = m_maxSize b
      /\ BaseGetMaxSize b' = BaseGetMaxSize b
      /\ CheckConfig b' = (true, b'))
  /\ (ok = false -> b' = b).
Proof.
  destruct b as [c f qs m].
  unfold CheckConfig, GetNQueueDiscClasses, GetNPacketFilters, GetNInternalQueues,
    AddInternalQueue, BaseGetMaxSize.
  cbn [nQueueDiscClasses nPacketFilters internalQueues m_maxSize].
  destruct c as [|c]; cbn [N.ltb N.compare];
    [|repeat split; cbn; try discriminate; intros; intuition discriminate].
  destruct f as [|f]; cbn [N.ltb N.compare];
    [|repeat split; cbn; try discriminate; intros; intuition discriminate].
  destruct qs as [|q [|q' qs]].
  - cbn. repeat split; try discriminate; auto.
  - cbn. repeat split; try discriminate; auto.
  - assert (Hn : (N.of_nat (List.length (q :: q' :: qs)) =? 0)%N = false)
      by (apply N.eqb_neq; cbn [List.length]; lia).
    assert (H1 : (N.of_nat (List.length (q :: q' :: qs)) =? 1)%N = false)
      by (apply N.eqb_neq; cbn [List.length]; lia).
    rewrite Hn. cbv zeta.
    cbn [nQueueDiscClasses nPacketFilters internalQueues m_maxSize].
    rewrite H1. cbn [negb fst snd].
    repeat split; try discriminate; auto.
    intros (_ & _ & Hlen). cbn [List.length] in Hlen. lia.
Qed.

End ShqConfiguration.

(** ** The recomputation timer from construction to disposal *)

Section ShqLifecycle.
Import Sim Shq Samples ShqTimer.







End ShqLifecycle.

(** ** The estimator over a whole observation window *)

Section LgcWindows.
Import Sim Lgc LgcSamples LgcWindow.
Local Open Scope N_scope.

Variable ge : SequenceNumber32 -> SequenceNumber32 -> bool.

Lemma U32_wrap_lt (n : N) : U32.wrap n < U32.modulus.
Proof.
  unfold U32.wrap. apply N.mod_lt. unfold U32.modulus. discriminate.
Qed.

Lemma U32_wrap_id (n : N) : n < U32.modulus -> U32.wrap n = n.
Proof.
  intros Hn. unfold U32.wrap. now apply N.mod_small.
Qed.

Lemma U32_wrap_add_l (a b c : N) :
  U32.wrap (U32.add a b + c) = U32.wrap (a + (b + c)).
Proof.
  unfold U32.add, U32.wrap. rewrite N.Div0.add_mod_idemp_l. f_equal. lia.
Qed.

Lemma sum_acked_app (l1 l2 : list AckCall) :
  sum_acked (l1 ++ l2) = sum_acked l1 + sum_acked l2.
Proof.
  induction l1 as [|a l1 IH]; cbn [sum_acked app]; [reflexivity|]. rewrite IH. lia.
Qed.

Lemma sum_acked_ecn_app (l1 l2 : list AckCall) :
  sum_acked_ecn (l1 ++ l2) = sum_acked_ecn l1 + sum_acked_ecn l2.
Proof.
  induction l1 as [|a l1 IH]; cbn [sum_acked_ecn app]; [reflexivity|]. rewrite IH. lia.
Qed.

(** A call that does not close the window. *)
Lemma ack_open (c : TcpLgc) (a : AckCall) :
  closes ge c a = false ->
  m_ackedBytesTotal (ack ge c a) = U32.add (m_ackedBytesTotal c) (acked a)
  /\ m_ackedBytesEcn (ack ge c a)
     = (if is_ECE_RCVD (m_ecnState (call_tcb a))
        then U32.add (m_ackedBytesEcn c) (acked a) else m_ackedBytesEcn c)
  /\ m_nextSeqFlag (ack ge c a) = true
  /\ m_nextSeq (ack ge c a) = window_end (call_tcb a) c
  /\ m_alpha (ack ge c a) = m_alpha c
  /\ m_g (ack ge c a) = m_g c
  /\ m_traceCongestionEstimate (ack ge c a) = m_traceCongestionEstimate c.
Proof.
  destruct c as [ecn0 total0 prior priorFlag alpha0 next nextFlag ce dack g
                   ect0 init reports].
  destruct a as [tcb n rtt].
  unfold closes, window_end, ack, PktsAcked, acked. cbn.
  destruct (is_ECE_RCVD (m_ecnState tcb)), nextFlag; cbn; intros Hopen;
    rewrite Hopen; cbn; repeat split.
Qed.

(** A call that closes the window. *)
Lemma ack_close (c : TcpLgc) (a : AckCall) :
  closes ge c a = true ->
  let total := U32.add (m_ackedBytesTotal c) (acked a) in
  let ecn := if is_ECE_RCVD (m_ecnState (call_tcb a))
             then U32.add (m_ackedBytesEcn c) (acked a) else m_ackedBytesEcn c in
  let fraction := if 0 <? total
                  then (Dbl.of_N ecn * 1 / Dbl.of_N total)%float else 0%float in
  let alpha := ((1 - m_g c) * m_alpha c + m_g c * fraction)%float in
  m_ackedBytesTotal (ack ge c a) = 0
  /\ m_ackedBytesEcn (ack ge c a) = 0
  /\ m_nextSeqFlag (ack ge c a) = true
  /\ m_nextSeq (ack ge c a) = m_nextTxSequence (call_tcb a)
  /\ m_alpha (ack ge c a) = alpha
  /\ m_g (ack ge c a) = m_g c
  /\ m_traceCongestionEstimate (ack ge c a)
     = (ecn, total, alpha) :: m_traceCongestionEstimate c.
Proof.
  destruct c as [ecn0 total0 prior priorFlag alpha0 next nextFlag ce dack g
                   ect0 init reports].
  destruct a as [tcb n rtt].
  unfold closes, window_end, ack, PktsAcked, acked. cbn.
  destruct (is_ECE_RCVD (m_ecnState tcb)), nextFlag; cbn; intros Hclose;
    rewrite Hclose; cbn; repeat split.
Qed.

Lemma run_app (l1 l2 : list AckCall) (c : TcpLgc) :
  run ge (l1 ++ l2) c = run ge l2 (run ge l1 c).
Proof.
  unfold run. apply fold_left_app.
Qed.

(** The state after calls none of which closes the window. *)
Lemma run_open (calls : list AckCall) :
  forall c : TcpLgc,
  m_ackedBytesTotal c < U32.modulus ->
  m_ackedBytesEcn c < U32.modulus ->
  stays_open ge calls c = true ->
  m_ackedBytesTotal (run ge calls c)
  = U32.wrap (m_ackedBytesTotal c + sum_acked calls)
  /\ m_ackedBytesEcn (run ge calls c)
     = U32.wrap (m_ackedBytesEcn c + sum_acked_ecn calls)
  /\ m_alpha (run ge calls c) = m_alpha c
  /\ m_g (run ge calls c) = m_g c
  /\ m_traceCongestionEstimate (run ge calls c) = m_traceCongestionEstimate c
  /\ (forall a rest, calls = a :: rest ->
      m_nextSeqFlag (run ge calls c) = true
      /\ m_nextSeq (run ge calls c) = window_end (call_tcb a) c).
Proof.
  induction calls as [|a calls IH]; intros c Ht He Hopen.
  - cbn. rewrite !N.add_0_r, !U32_wrap_id by assumption.
    repeat split; discriminate.
  - cbn [stays_open] in Hopen. apply andb_prop in Hopen.
    destruct Hopen as [Ha Hrest]. apply negb_true_iff in Ha.
    destruct (ack_open c a Ha) as (Ht1 & He1 & Hf1 & Hn1 & Hal1 & Hg1 & Htr1).
    assert (Ht1' : m_ackedBytesTotal (ack ge c a) < U32.modulus)
      by (rewrite Ht1; apply U32_wrap_lt).
    assert (He1' : m_ackedBytesEcn (ack ge c a) < U32.modulus)
      by (rewrite He1; destruct (is_ECE_RCVD _); [apply U32_wrap_lt|exact He]).
    destruct (IH (ack ge c a) Ht1' He1' Hrest) as (Ht2 & He2 & Hal2 & Hg2 & Htr2 & Hn2).
    change (run ge (a :: calls) c) with (run ge calls (ack ge c a)).
    rewrite Ht2, He2, Hal2, Hg2, Htr2. cbn [sum_acked sum_acked_ecn].
    split; [rewrite Ht1; apply U32_wrap_add_l|].
    split.
    { rewrite He1. unfold acked_ecn. destruct (is_ECE_RCVD _).
      - apply U32_wrap_add_l.
      - reflexivity. }
    repeat split; auto.
    + destruct calls as [|a' calls'].
      * exact Hf1.
      * apply (Hn2 a' calls' eq_refl).
    + injection H as <- <-. destruct calls as [|a' calls'].
      * exact Hn1.
      * destruct (Hn2 a' calls' eq_refl) as [_ Hn]. rewrite Hn.
        unfold window_end. rewrite Hf1. exact Hn1.
Qed.

(** X10 -- from the start of a window (both counters 0, as the
    constructor and [Reset] leave them) and as long as no call finds the
    last acknowledged sequence at the end of the window, [PktsAcked] only
    accumulates: alpha, the gain and the reports stay as they were, the
    two counters hold the bytes acknowledged and the bytes acknowledged
    with ECN-Echo, modulo 2^32, and the end of the window stays where the
    first call put it. *)
Theorem open_window_only_accumulates (calls : list AckCall) (c : TcpLgc) :
  m_ackedBytesTotal c = 0 ->
  m_ackedBytesEcn c = 0 ->
  stays_open ge calls c = true ->
  let c' := run ge calls c in
  m_alpha c' = m_alpha c
  /\ m_traceCongestionEstimate c' = m_traceCongestionEstimate c
  /\ m_ackedBytesTotal c' = U32.wrap (sum_acked calls)
  /\ m_ackedBytesEcn c' = U32.wrap (sum_acked_ecn calls)
  /\ (forall a rest, calls = a :: rest ->
      m_nextSeqFlag c' = true /\ m_nextSeq c' = window_end (call_tcb a) c).
Proof.
  intros Ht He Hopen. cbv zeta.
  destruct (run_open calls c) as (Ht' & He' & Hal & _ & Htr & Hn); auto.
  - rewrite Ht. reflexivity.
  - rewrite He. reflexivity.
  - rewrite Ht in Ht'. rewrite He in He'. auto.
Qed.

(** X11 -- the estimate made when a window closes is over the whole
    window: when the calls since the start of the window (both counters
    0) did not close it and the next call does, alpha becomes
    [(1 - g) * alpha + g * F], where [F] is the quotient of the bytes
    acknowledged with ECN-Echo by the bytes acknowledged over all these
    calls, the closing one included, each sum modulo 2^32, and 0 when the
    latter is 0; that estimate is reported once with the two sums, the
    counters return to 0 and the next window ends at the closing call's
    next sequence to send. *)
Theorem window_close_averages_whole_window
        (calls : list AckCall) (a : AckCall) (c : TcpLgc) :
  m_ackedBytesTotal c = 0 ->
  m_ackedBytesEcn c = 0 ->
  stays_open ge calls c = true ->
  closes ge (run ge calls c) a = true ->
  let c' := run ge (calls ++ [a]) c in
  let total := U32.wrap (sum_acked (calls ++ [a])) in
  let ecn := U32.wrap (sum_acked_ecn (calls ++ [a])) in
  let fraction := if 0 <? total
                  then (Dbl.of_N ecn * 1 / Dbl.of_N total)%float else 0%float in
  m_alpha c' = ((1 - m_g c) * m_alpha c + m_g c * fraction)%float
  /\ m_traceCongestionEstimate c'
     = (ecn, total, m_alpha c') :: m_traceCongestionEstimate c
  /\ m_ackedBytesTotal c' = 0
  /\ m_ackedBytesEcn c' = 0
  /\ m_nextSeqFlag c' = true
  /\ m_nextSeq c' = m_nextTxSequence (call_tcb a).
Proof.
  intros Ht He Hopen Hclose. cbv zeta.
  destruct (run_open calls c) as (Ht' & He' & Hal & Hg & Htr & _); auto.
  { rewrite Ht. reflexivity. }
  { rewrite He. reflexivity. }
  rewrite Ht in Ht'. rewrite He in He'. rewrite N.add_0_l in Ht', He'.
  destruct (ack_close (run ge calls c) a Hclose)
    as (Ht2 & He2 & Hf2 & Hn2 & Hal2 & _ & Htr2).
  rewrite run_app. change (run ge [a] (run ge calls c)) with (ack ge (run ge calls c) a).
  rewrite sum_acked_app, sum_acked_ecn_app. cbn [sum_acked sum_acked_ecn].
  rewrite !N.add_0_r.
  assert (Htot : U32.add (m_ackedBytesTotal (run ge calls c)) (acked a)
                 = U32.wrap (sum_acked calls + acked a))
    by (rewrite Ht'; apply U32_add_wrap_l).
  assert (Hecn : (if is_ECE_RCVD (m_ecnState (call_tcb a))
                  then U32.add (m_ackedBytesEcn (run ge calls c)) (acked a)
                  else m_ackedBytesEcn (run ge calls c))
                 = U32.wrap (sum_acked_ecn calls + acked_ecn a)).
  { rewrite He'. unfold acked_ecn. destruct (is_ECE_RCVD _).
    - apply U32_add_wrap_l.
    - now rewrite N.add_0_r. }
  rewrite Htot, Hecn, Hal, Hg, Htr in *.
  rewrite Htr2, Hal2. repeat split; assumption.
Qed.

End LgcWindows.

Section LgcWindowSamples.
Import Sim Lgc LgcSamples LgcWindow.
Local Open Scope N_scope.

Lemma open_window_only_accumulates_witness :
  stays_open seq_ge two_large_acks fresh_lgc = true
  /\ m_alpha (run seq_ge two_large_acks fresh_lgc) = m_alpha fresh_lgc
  /\ m_ackedBytesTotal (run seq_ge two_large_acks fresh_lgc) = 1497032704
  /\ m_ackedBytesEcn (run seq_ge two_large_acks fresh_lgc) = 2896000000.
Proof.
  split; [reflexivity|].
  destruct (open_window_only_accumulates seq_ge two_large_acks fresh_lgc
              eq_refl eq_refl eq_refl) as (Ha & _ & Ht & He & _).
  split; [exact Ha|]. split; [exact Ht|exact He].
Defined.

Lemma window_close_averages_whole_window_witness :
  stays_open seq_ge (firstn 1 four_small_acks) fresh_lgc = true
  /\ closes seq_ge (run seq_ge (firstn 1 four_small_acks) fresh_lgc)
            (mkAckCall (connection 10000 1448 9000 5000 ECN_ECE_RCVD) 2 0%Z) = true
  /\ m_traceCongestionEstimate (run seq_ge (firstn 2 four_small_acks) fresh_lgc)
     = [(2896, 4344, m_alpha (run seq_ge (firstn 2 four_small_acks) fresh_lgc))]
  /\ m_alpha (run seq_ge (firstn 2 four_small_acks) fresh_lgc)
     = ((1 - 0.0625) * 1 + 0.0625 * (Dbl.of_N 2896 * 1 / Dbl.of_N 4344))%float.
Proof.
  split; [reflexivity|]. split; [reflexivity|].
  destruct (window_close_averages_whole_window seq_ge
              (firstn 1 four_small_acks)
              (mkAckCall (connection 10000 1448 9000 5000 ECN_ECE_RCVD) 2 0%Z)
              fresh_lgc eq_refl eq_refl eq_refl eq_refl) as (Ha & Htr & _).
  split; [exact Htr|exact Ha].
Defined.

End LgcWindowSamples.

(** ** Forked estimators *)

Section LgcForks.
Import Sim Lgc LgcSamples LgcWindow.
Local Open Scope N_scope.

Variable ge : SequenceNumber32 -> SequenceNumber32 -> bool.

(** Two estimators with the same members take a call alike and report
    the same. *)
Lemma ack_same_members (c1 c2 : TcpLgc) (a : AckCall) :
  Fork c1 = Fork c2 ->
  Fork (ack ge c1 a) = Fork (ack ge c2 a)
  /\ exists reports,
       m_traceCongestionEstimate (ack ge c1 a)
       = reports ++ m_traceCongestionEstimate c1
       /\ m_traceCongestionEstimate (ack ge c2 a)
          = reports ++ m_traceCongestionEstimate c2.
Proof.
  destruct c1 as [ecn1 total1 prior1 priorFlag1 alpha1 next1 nextFlag1 ce1 dack1
                    g1 ect1 init1 reports1].
  destruct c2 as [ecn2 total2 prior2 priorFlag2 alpha2 next2 nextFlag2 ce2 dack2
                    g2 ect2 init2 reports2].
  destruct a as [tcb n rtt].
  unfold Fork. cbn. intros [= -> -> -> -> -> -> -> -> -> -> -> ->].
  unfold ack, PktsAcked. cbn.
  destruct (is_ECE_RCVD (m_ecnState tcb)), nextFlag2; cbn;
    match goal with |- context [ge ?x ?y] => destruct (ge x y) end; cbn;
    (split; [reflexivity|]);
    first [ now exists [] | eexists [_]; split; reflexivity ].
Qed.

Lemma run_same_members (calls : list AckCall) :
  forall c1 c2 : TcpLgc,
  Fork c1 = Fork c2 ->
  Fork (run ge calls c1) = Fork (run ge calls c2)
  /\ exists reports,
       m_traceCongestionEstimate (run ge calls c1)
       = reports ++ m_traceCongestionEstimate c1
       /\ m_traceCongestionEstimate (run ge calls c2)
          = reports ++ m_traceCongestionEstimate c2.
Proof.
  induction calls as [|a calls IH]; intros c1 c2 Hsame.
  - split; [exact Hsame|]. now exists [].
  - destruct (ack_same_members c1 c2 a Hsame) as (Hsame1 & r1 & Hr1 & Hr2).
    destruct (IH _ _ Hsame1) as (Hsame2 & r2 & Hr3 & Hr4).
    change (run ge (a :: calls) c1) with (run ge calls (ack ge c1 a)).
    change (run ge (a :: calls) c2) with (run ge calls (ack ge c2 a)).
    split; [exact Hsame2|]. exists (r2 ++ r1).
    rewrite Hr3, Hr4, Hr1, Hr2, <- !app_assoc. split; reflexivity.
Qed.

(** X12 -- an estimator forked from another and given the same calls of
    [PktsAcked] ends with the same counters, alpha, gain, window end and
    flags as the original, and reports exactly the estimates the original
    reports from the fork on.  It also inherits the [Init] flag: forked
    from an initialized estimator, it refuses [InitializeDctcpAlpha]. *)
Theorem Fork_follows_original (calls : list AckCall) (c : TcpLgc) :
  let o := run ge calls c in
  let f := run ge calls (Fork c) in
  (m_ackedBytesEcn f = m_ackedBytesEcn o
   /\ m_ackedBytesTotal f = m_ackedBytesTotal o
   /\ m_alpha f = m_alpha o
   /\ m_g f = m_g o
   /\ m_nextSeq f = m_nextSeq o
   /\ m_nextSeqFlag f = m_nextSeqFlag o
   /\ m_useEct0 f = m_useEct0 o
   /\ m_initialized f = m_initialized o)
  /\ m_traceCongestionEstimate o
     = m_traceCongestionEstimate f ++ m_traceCongestionEstimate c
  /\ (forall alpha : float,
      m_initialized c = true ->
      InitializeDctcpAlpha alpha (Fork c)
      = Abort "DCTCP has already been initialized"%string).
Proof.
  cbv zeta.
  destruct (run_same_members calls (Fork c) c) as (Hsame & reports & Hf & Ho).
  { destruct c. reflexivity. }
  split; [|split].
  - revert Hsame.
    destruct (run ge calls (Fork c)), (run ge calls c). unfold Fork. cbn.
    intros [= -> -> -> -> -> -> -> -> -> -> -> ->]. repeat split.
  - rewrite Ho, Hf. destruct c; cbn. now rewrite app_nil_r.
  - intros alpha Hinit. unfold InitializeDctcpAlpha, Fork. cbn. now rewrite Hinit.
Qed.

End LgcForks.

(** ** Conversions between [uint32_t] and [double] *)

Section DoubleExact.
Local Open Scope Z_scope.

Lemma digits2_pos_iter (p k : positive) :
  digits2_pos (Pos.iter xO p k) = (digits2_pos p + k)%positive.
Proof.
  induction k as [|k IH] using Pos.peano_ind.
  - cbn. now rewrite Pos.add_1_r.
  - rewrite Pos.iter_succ. cbn [digits2_pos]. rewrite IH. now rewrite Pos.add_succ_r.
Qed.

Lemma Zpos_iter (p k : positive) :
  Z.pos (Pos.iter xO p k) = Z.pos p * 2 ^ Z.pos k.
Proof.
  induction k as [|k IH] using Pos.peano_ind.
  - cbn [Pos.iter]. rewrite Z.pow_1_r. lia.
  - rewrite Pos.iter_succ, Pos2Z.inj_succ, Z.pow_succ_r by lia.
    rewrite Pos2Z.inj_xO, IH. lia.
Qed.

Lemma digits2_pos_upper (p : positive) : Z.pos p < 2 ^ Z.pos (digits2_pos p).
Proof.
  induction p as [p IH|p IH|]; cbn [digits2_pos];
    rewrite ?Pos2Z.inj_succ, ?Z.pow_succ_r by lia; lia.
Qed.

Lemma digits2_pos_lower (p : positive) : 2 ^ (Z.pos (digits2_pos p) - 1) <= Z.pos p.
Proof.
  induction p as [p IH|p IH|]; cbn [digits2_pos].
  - rewrite Pos2Z.inj_succ. replace (Z.succ (Z.pos (digits2_pos p)) - 1)
      with (Z.succ (Z.pos (digits2_pos p) - 1)) by lia.
    rewrite Z.pow_succ_r by lia. lia.
  - rewrite Pos2Z.inj_succ. replace (Z.succ (Z.pos (digits2_pos p)) - 1)
      with (Z.succ (Z.pos (digits2_pos p) - 1)) by lia.
    rewrite Z.pow_succ_r by lia. lia.
  - cbn. lia.
Qed.


Lemma binary_round_aux_canonical (s : bool) (m : positive) (e : Z) :
  digits2_pos m = 53%positive -> -1074 <= e <= 971 ->
  binary_round_aux prec emax s (Z.pos m) e loc_Exact = S754_finite s m e.
Proof.
  intros Hd He. unfold binary_round_aux, shr_fexp.
  cbn [Zdigits2]. rewrite Hd.
  assert (Hf : fexp prec emax (53 + e) - e = 0)
    by (unfold fexp, emin, prec, emax; lia).
  rewrite Hf. cbn [shr shr_record_of_loc shr_m loc_of_shr_record round_nearest_even Zdigits2].
  rewrite Hd, Hf. cbn [shr shr_m].
  replace (e <=? emax - prec) with true; [reflexivity|].
  symmetry. apply Z.leb_le. unfold emax, prec. lia.
Qed.

Lemma binary_normalize_small (p : positive) :
  Z.pos (digits2_pos p) <= 53 ->
  exists (m : positive) (k : Z),
    binary_normalize prec emax (Z.pos p) 0 false = S754_finite false m (- k)
    /\ 0 <= k <= 52 /\ Z.pos m = Z.pos p * 2 ^ k /\ digits2_pos m = 53%positive.
Proof.
  intros Hd. unfold binary_normalize, binary_round, shl_align.
  assert (Hf : fexp prec emax (Z.pos (digits2_pos p) + 0) - 0
               = Z.pos (digits2_pos p) - 53)
    by (unfold fexp, emin, prec, emax; lia).
  rewrite Hf.
  destruct (Z.pos (digits2_pos p) - 53) as [|q|q] eqn:Hk; [|lia|].
  - exists p, 0. rewrite Z.add_0_r in *.
    assert (Hd53 : digits2_pos p = 53%positive) by lia.
    rewrite binary_round_aux_canonical by (auto; lia).
    repeat split; lia.
  - exists (Pos.iter xO p q), (Z.pos q).
    assert (Hd53 : digits2_pos (Pos.iter xO p q) = 53%positive)
      by (rewrite digits2_pos_iter; lia).
    assert (Hfe : fexp prec emax (Z.pos (digits2_pos p) + 0) = Z.neg q)
      by lia.
    rewrite Hfe, binary_round_aux_canonical by (auto; lia).
    repeat split; try lia. apply Zpos_iter.
Qed.


Lemma finite_53_valid (s : bool) (m : positive) (e : Z) :
  digits2_pos m = 53%positive -> -1074 <= e <= 971 ->
  valid_binary (S754_finite s m e) = true.
Proof.
  intros Hd He. cbn [SpecFloat.valid_binary]. unfold bounded, canonical_mantissa.
  rewrite Hd. apply andb_true_intro. split.
  - apply Z.eqb_eq. unfold fexp, emin, prec, emax. lia.
  - apply Z.leb_le. unfold emax, prec. lia.
Qed.

(** A positive integer below 2^53 converts exactly: the mantissa is the
    integer shifted left to 53 bits. *)
Lemma of_Z_small (p : positive) :
  Z.pos p < 2 ^ 53 ->
  exists (m : positive) (k : Z),
    Prim2SF (Dbl.of_Z (Z.pos p)) = S754_finite false m (- k)
    /\ 0 <= k <= 52 /\ Z.pos m = Z.pos p * 2 ^ k /\ digits2_pos m = 53%positive.
Proof.
  intros Hp.
  assert (Hd : Z.pos (digits2_pos p) <= 53).
  { destruct (Z.le_gt_cases (Z.pos (digits2_pos p)) 53) as [H|H]; [exact H|].
    pose proof (digits2_pos_lower p) as Hl.
    assert (2 ^ 53 <= 2 ^ (Z.pos (digits2_pos p) - 1))
      by (apply Z.pow_le_mono_r; lia).
    lia. }
  destruct (binary_normalize_small p Hd) as (m & k & Hn & Hk & Hm & Hd53).
  exists m, k. unfold Dbl.of_Z. rewrite Hn.
  rewrite Prim2SF_SF2Prim by (apply finite_53_valid; [exact Hd53|lia]).
  repeat split; auto; lia.
Qed.

(** Halving a normal double is exact. *)
Lemma SFmul_half_l (m : positive) (e : Z) :
  digits2_pos m = 53%positive -> -1073 <= e <= 971 ->
  SF64mul (S754_finite false 4503599627370496 (-53)) (S754_finite false m e)
  = S754_finite false m (e - 1).
Proof.
  intros Hd He. unfold SF64mul, SFmul. cbn [xorb Pos.mul].
  unfold binary_round_aux, shr_fexp.
  cbn [Zdigits2 digits2_pos]. rewrite Hd.
  match goal with
  | |- context [fexp _ _ ?x - ?y] =>
      replace (fexp prec emax x - y) with 52
        by (unfold fexp, emin, prec, emax; lia)
  end.
  cbn [shr shr_record_of_loc iter_pos shr_1 orb].
  cbn [round_nearest_even shr_m loc_of_shr_record Zdigits2].
  rewrite Hd.
  match goal with
  | |- context [fexp _ _ ?x - ?y] =>
      replace (fexp prec emax x - y) with 0
        by (unfold fexp, emin, prec, emax; lia)
  end.
  cbn [shr shr_m].
  replace (-53 + e + 52) with (e - 1) by lia.
  replace (e - 1 <=? emax - prec) with true; [reflexivity|].
  symmetry. apply Z.leb_le. unfold emax, prec. lia.
Qed.

Lemma SFtrunc_shifted (m p : positive) (k j : Z) :
  0 <= k -> 0 <= j -> Z.pos m = Z.pos p * 2 ^ k ->
  Dbl.SFtrunc (S754_finite false m (- (k + j))) = Some (Z.pos p / 2 ^ j).
Proof.
  intros Hk Hj Hm. unfold Dbl.SFtrunc. f_equal.
  destruct (- (k + j)) as [|q|q] eqn:Hq; try lia.
  - assert (k = 0) by lia. assert (j = 0) by lia. subst.
    rewrite Z.shiftl_0_r, Hm. cbn. rewrite Z.div_1_r. lia.
  - rewrite Z.shiftr_div_pow2 by lia.
    replace (Z.pos q) with (k + j) by lia.
    rewrite Hm, Z.pow_add_r by lia.
    rewrite (Z.mul_comm (2 ^ k)), Z.div_mul_cancel_r; [reflexivity| |];
      apply Z.pow_nonzero; lia.
Qed.

Lemma to_uint32_of_N (n : N) :
  (n < 2 ^ 32)%N -> Dbl.to_uint32 (Dbl.of_N n) = Some n.
Proof.
  intros Hn. destruct n as [|p]; [reflexivity|].
  assert (Hp : Z.pos p < 2 ^ 32) by (change (2 ^ 32) with (Z.of_N (2 ^ 32)); lia).
  destruct (of_Z_small p) as (m & k & Hsf & Hk & Hm & _); [lia|].
  unfold Dbl.to_uint32, Dbl.trunc, Dbl.of_N. cbn [Z.of_N]. rewrite Hsf.
  replace (- k) with (- (k + 0)) by lia.
  rewrite (SFtrunc_shifted m p k 0) by (auto; lia).
  rewrite Z.pow_0_r, Z.div_1_r.
  replace ((0 <=? Z.pos p) && (Z.pos p <? 2 ^ 32)) with true; [reflexivity|].
  symmetry. apply andb_true_intro. split; [apply Z.leb_le|apply Z.ltb_lt]; lia.
Qed.

Lemma to_uint32_half_of_N (n : N) :
  (n < 2 ^ 32)%N -> Dbl.to_uint32 (0.5 * Dbl.of_N n)%float = Some (n / 2)%N.
Proof.
  intros Hn. destruct n as [|p]; [reflexivity|].
  assert (Hp : Z.pos p < 2 ^ 32) by (change (2 ^ 32) with (Z.of_N (2 ^ 32)); lia).
  destruct (of_Z_small p) as (m & k & Hsf & Hk & Hm & Hd); [lia|].
  unfold Dbl.to_uint32, Dbl.trunc, Dbl.of_N. cbn [Z.of_N].
  rewrite mul_spec, Hsf.
  change (Prim2SF 0.5) with (S754_finite false 4503599627370496 (-53)).
  rewrite SFmul_half_l by (auto; lia).
  replace (- k - 1) with (- (k + 1)) by lia.
  rewrite (SFtrunc_shifted m p k 1) by (auto; lia).
  rewrite Z.pow_1_r.
  assert (Hq : 0 <= Z.pos p / 2 < 2 ^ 32).
  { split; [apply Z.div_pos; lia|].
    apply Z.div_lt_upper_bound; lia. }
  replace ((0 <=? Z.pos p / 2) && (Z.pos p / 2 <? 2 ^ 32)) with true.
  - f_equal. change 2 with (Z.of_N 2). change (Z.pos p) with (Z.of_N (N.pos p)).
    rewrite <- N2Z.inj_div. apply N2Z.id.
  - symmetry. apply andb_true_intro. split; [apply Z.leb_le|apply Z.ltb_lt]; lia.
Qed.

End DoubleExact.

(** ** The slow-start threshold at the ends of the scale *)

Section LgcThreshold.
Import Sim Lgc LgcSamples.
Local Open Scope N_scope.

(** X13 -- for every 32-bit window [GetSsThresh] is defined at both
    ends of the scale and exact there: with alpha 0 it returns the
    window itself, with alpha 1 half the window, rounded down. *)
Theorem GetSsThresh_keeps_or_halves
        (tcb : TcpSocketState) (bytesInFlight : N) (c : TcpLgc) :
  (m_cWnd tcb < 2 ^ 32)%N ->
  (m_alpha c = 0%float ->
   GetSsThresh tcb bytesInFlight c = (Some (m_cWnd tcb), c))
  /\ (m_alpha c = 1%float ->
      GetSsThresh tcb bytesInFlight c = (Some (m_cWnd tcb / 2)%N, c)).
Proof.
  intros Hw. unfold GetSsThresh. split; intros Ha; rewrite Ha.
  - change (1 - 0 / 2)%float with 1%float.
    rewrite double_mul_comm, double_mul_one_r, to_uint32_of_N by exact Hw.
    reflexivity.
  - change (1 - 1 / 2)%float with 0.5%float.
    rewrite to_uint32_half_of_N by exact Hw. reflexivity.
Qed.

Lemma GetSsThresh_keeps_or_halves_witness :
  (m_cWnd tiny_window < 2 ^ 32)%N
  /\ GetSsThresh tiny_window 0%N saturated = (Some 1%N, saturated)
  /\ GetSsThresh (connection 4294967295 1448 0 0 ECN_IDLE) 0%N
                 (constructor 0%float 0.0625%float true)
     = (Some 4294967295%N, constructor 0%float 0.0625%float true).
Proof.
  split; [reflexivity|]. split.
  - exact (proj2 (GetSsThresh_keeps_or_halves tiny_window 0%N saturated eq_refl)
                 eq_refl).
  - exact (proj1 (GetSsThresh_keeps_or_halves
                    (connection 4294967295 1448 0 0 ECN_IDLE) 0%N
                    (constructor 0%float 0.0625%float true) eq_refl) eq_refl).
Defined.

End LgcThreshold.
